(** * EtherscanEventGetter: event-log retrieval from a block-explorer API

    A shallow embedding of [src/lib/api/logs/EtherscanEventGetter.ts]:
    the query builder [prepareEtherscanGetLogsQuery], the record
    normaliser [formatEtherscanEvent], the transport retry loop
    [retryOn429] and the orchestrator [EtherscanEventGetter.getEvents],
    followed by the properties the specification states about them.

    Conventions.
    - A JavaScript string is a [string]; every [ascii] stands for one
      UTF-16 code unit below 256 (the provider's hexadecimal fields and
      its error messages are plain ASCII).
    - Block numbers and page numbers are [Z]; an optional field is an
      [option].
    - The result of [Number.parseInt] is a [number]: the integer-valued
      doubles together with NaN, -0 and the two infinities.
    - Asynchronous code is written in a state-and-exception monad [M]
      over the list of HTTP requests sent so far; recursion that the
      source leaves unbounded takes a fuel argument. *)

From Stdlib Require Import ZArith String Ascii List Bool Lia.
From stdpp Require Import base option list gmap.
Import ListNotations.

Local Open Scope string_scope.
Local Open Scope Z_scope.

(** ** JavaScript strings *)

Module JsString.

Definition code (c : ascii) : Z := Z.of_N (N_of_ascii c).

Definition in_range (lo hi : Z) (c : ascii) : bool :=
  (lo <=? code c) && (code c <=? hi).

Definition shift_code (d : Z) (c : ascii) : ascii :=
  ascii_of_N (Z.to_N (code c + d)).

(** [String.prototype.toLowerCase] on code units below 256: the
    letters A-Z and the Latin-1 capitals U+00C0-U+00DE (except the
    multiplication sign U+00D7) move up by 32. *)
Definition lower_unit (c : ascii) : ascii :=
  if in_range 65 90 c then shift_code 32 c
  else if in_range 192 222 c && negb (code c =? 215) then shift_code 32 c
  else c.

Fixpoint toLowerCase (s : string) : string :=
  match s with
  | EmptyString => EmptyString
  | String c s' => String (lower_unit c) (toLowerCase s')
  end.

Fixpoint startsWith (needle s : string) : bool :=
  match needle, s with
  | EmptyString, _ => true
  | String a n', String b s' => Ascii.eqb a b && startsWith n' s'
  | String _ _, EmptyString => false
  end.

(** [String.prototype.includes]: [needle] occurs somewhere in [s]. *)
Fixpoint includes (s needle : string) : bool :=
  startsWith needle s ||
  match s with
  | EmptyString => false
  | String _ s' => includes s' needle
  end.

(** The [length] property, as a number. *)
Definition length (s : string) : Z := Z.of_nat (String.length s).

(** WhiteSpace and LineTerminator code units below 256. *)
Definition isWhiteSpace (c : ascii) : bool :=
  in_range 9 13 c || (code c =? 32) || (code c =? 160).

Fixpoint trimStart (s : string) : string :=
  match s with
  | EmptyString => EmptyString
  | String c s' => if isWhiteSpace c then trimStart s' else s
  end.

Fixpoint repeat (c : ascii) (n : nat) : string :=
  match n with
  | O => EmptyString
  | S n' => String c (repeat c n')
  end.

End JsString.

(** ** JavaScript numbers produced by [parseInt] *)

Inductive number : Type :=
| NaN
| NegZero
| Int (z : Z)
| Infinity (negative : bool).

Module JsNumber.

(** Round a positive integer to the nearest double, ties to even
    (53 bits of significand). *)
Definition round53 (m : Z) : Z :=
  let e := Z.log2 m in
  if e <? 53 then m
  else
    let sh := e - 52 in
    let q := Z.shiftr m sh in
    let r := Z.land m (Z.ones sh) in
    let half := Z.shiftl 1 (sh - 1) in
    let q' := if (half <? r) || ((r =? half) && Z.odd q) then q + 1 else q in
    Z.shiftl q' sh.

(** The Number value of [sign * m] for [m >= 0], as step 13-14 of
    [parseInt] builds it. *)
Definition ofMathInt (sign m : Z) : number :=
  if m =? 0 then (if sign =? -1 then NegZero else Int 0)
  else
    let v := round53 m in
    if 2 ^ 1024 <=? v then Infinity (sign <? 0) else Int (sign * v).

(** Value of a code unit as a digit: 0-9, then a-z or A-Z for 10-35. *)
Definition digitValue (c : ascii) : option Z :=
  if JsString.in_range 48 57 c then Some (JsString.code c - 48)
  else if JsString.in_range 97 122 c then Some (JsString.code c - 87)
  else if JsString.in_range 65 90 c then Some (JsString.code c - 55)
  else None.

(** The digits of the longest prefix of [s] made of radix-[R] digits. *)
Fixpoint radixDigits (R : Z) (s : string) : list Z :=
  match s with
  | EmptyString => []
  | String c s' =>
      match digitValue c with
      | Some d => if d <? R then d :: radixDigits R s' else []
      | None => []
      end
  end.

Definition mathInt (R : Z) (ds : list Z) : Z :=
  fold_left (fun acc d => R * acc + d) ds 0.

(** The sign a leading "-" or "+" denotes, and the text after it. *)
Definition readSign (s : string) : Z * string :=
  match s with
  | String c r =>
      if Ascii.eqb c "-" then (-1, r)
      else if Ascii.eqb c "+" then (1, r)
      else (1, s)
  | EmptyString => (1, s)
  end.

(** Does the text begin with 0x or 0X? *)
Definition hasHexPrefix (s : string) : bool :=
  match s with
  | String a (String b _) =>
      Ascii.eqb a "0" && (Ascii.eqb b "x" || Ascii.eqb b "X")
  | _ => false
  end.

Definition dropTwo (s : string) : string :=
  match s with
  | String _ (String _ r) => r
  | _ => s
  end.

(** [Number.parseInt(string, radix)] for an integer [radix] (ECMA-262
    [parseInt]): trim leading white space, read an optional sign, for
    radix 16 (or 0) skip an optional 0x / 0X, read the longest run of
    digits; no digit at all gives NaN.  The function never throws. *)
Definition parseInt (s : string) (radix : Z) : number :=
  let '(sign, S1) := readSign (JsString.trimStart s) in
  if negb (radix =? 0) && ((radix <? 2) || (36 <? radix)) then NaN
  else
    let R0 := if radix =? 0 then 10 else radix in
    let stripPrefix := (radix =? 0) || (radix =? 16) in
    let '(R, S2) :=
      if stripPrefix && hasHexPrefix S1 then (16, dropTwo S1)
      else (R0, S1) in
    match radixDigits R S2 with
    | [] => NaN
    | ds => ofMathInt sign (mathInt R ds)
    end.

End JsNumber.

(** ** Values that occur as topics *)

(** A topic slot of a filter or of a provider record: a string, [null],
    [undefined] (a missing array position) or an array of alternative
    strings. *)
Inductive JsValue : Type :=
| JsUndefined
| JsNull
| JsStr (s : string)
| JsStrArray (alternatives : list string).

(** ToBoolean: [undefined], [null] and the empty string are falsy, every
    other value (arrays included) is truthy. *)
Definition truthy (v : JsValue) : bool :=
  match v with
  | JsUndefined | JsNull => false
  | JsStr s => negb (String.eqb s "")
  | JsStrArray _ => true
  end.

(** The operator [a && b]: [a] when [a] is falsy, otherwise [b]. *)
Definition js_and (a b : JsValue) : JsValue :=
  if truthy a then b else a.

(** ** Filters and queries *)

Module Filter.
Record t : Type := mk {
  fromBlock : option Z;
  toBlock : option Z;
  topics : option (list JsValue)
}.
End Filter.

(** The value sent as [toBlock]: a block number or the text 'latest'. *)
Inductive BlockTag : Type :=
| BlockNumber (n : Z)
| Latest.

Module Query.
(** The object literal built by [prepareEtherscanGetLogsQuery].  A
    property whose value is [undefined] is [None] (or [JsUndefined]
    for a topic); the HTTP client leaves such properties out of the
    request. *)
Record t : Type := mk {
  module : string;
  action : string;
  fromBlock : Z;
  toBlock : BlockTag;
  topic0 : JsValue;
  topic1 : JsValue;
  topic2 : JsValue;
  topic3 : JsValue;
  topic0_1_opr : option string;
  topic0_2_opr : option string;
  topic0_3_opr : option string;
  topic1_2_opr : option string;
  topic1_3_opr : option string;
  topic2_3_opr : option string;
  offset : Z;
  apiKey : option string;
  page : Z
}.
End Query.

(** [cond ? 'and' : undefined] *)
Definition and_or_undefined (cond : JsValue) : option string :=
  if truthy cond then Some "and" else None.

(** Array destructuring: position [i] of [l], [undefined] past the end. *)
Definition element (l : list JsValue) (i : nat) : JsValue :=
  nth i l JsUndefined.

(** [(topic) => typeof topic === 'string' ? topic.toLowerCase() : topic] *)
Definition lowerTopic (topic : JsValue) : JsValue :=
  match topic with
  | JsStr s => JsStr (JsString.toLowerCase s)
  | _ => topic
  end.

Definition prepareEtherscanGetLogsQuery
    (filter : Filter.t) (page : Z) (apiKey : option string) : Query.t :=
  let lowered := map lowerTopic (default [] (Filter.topics filter)) in
  let topic0 := element lowered 0 in
  let topic1 := element lowered 1 in
  let topic2 := element lowered 2 in
  let topic3 := element lowered 3 in
  {| Query.module := "logs";
     Query.action := "getLogs";
     Query.fromBlock := default 0 (Filter.fromBlock filter);
     Query.toBlock :=
       match Filter.toBlock filter with
       | Some n => BlockNumber n
       | None => Latest
       end;
     Query.topic0 := topic0;
     Query.topic1 := topic1;
     Query.topic2 := topic2;
     Query.topic3 := topic3;
     Query.topic0_1_opr := and_or_undefined (js_and topic0 topic1);
     Query.topic0_2_opr := and_or_undefined (js_and topic0 topic2);
     Query.topic0_3_opr := and_or_undefined (js_and topic0 topic3);
     Query.topic1_2_opr := and_or_undefined (js_and topic1 topic2);
     Query.topic1_3_opr := and_or_undefined (js_and topic1 topic3);
     Query.topic2_3_opr := and_or_undefined (js_and topic2 topic3);
     Query.offset := 1000;
     Query.apiKey := apiKey;
     Query.page := page |}.

(** ** Provider records and canonical logs *)

Module EtherscanLog.
(** A log record as the provider sends it: every scalar field is a
    JSON string, [topics] an array of strings (possibly empty ones)
    or nulls. *)
Record t : Type := mk {
  address : string;
  topics : list JsValue;
  data : string;
  transactionHash : string;
  blockNumber : string;
  transactionIndex : string;
  logIndex : string;
  timeStamp : string
}.
End EtherscanLog.

Module Log.
Record t : Type := mk {
  address : string;
  topics : list JsValue;
  data : string;
  transactionHash : string;
  blockNumber : number;
  transactionIndex : number;
  logIndex : number;
  timestamp : number
}.
End Log.

(** ** Exceptions, results and the world *)

Inductive exn : Type :=
| Error (message : string)
| TypeError (message : string)
| InvalidAddressError (address : string).

Definition message (e : exn) : string :=
  match e with
  | Error m => m
  | TypeError m => m
  | InvalidAddressError a =>
      let quote := String (ascii_of_nat 34) EmptyString in
      "Address " ++ quote ++ a ++ quote ++ " is invalid."
  end.

(** A synchronous computation that returns or throws. *)
Inductive result (A : Type) : Type :=
| Ok (a : A)
| Throw (e : exn).
Arguments Ok {A} a.
Arguments Throw {A} e.

(** [Array.prototype.map] with a callback that may throw: elements are
    visited in order and the first exception aborts the whole map. *)
Fixpoint Array_map {A B : Type} (f : A -> result B) (l : list A)
    : result (list B) :=
  match l with
  | [] => Ok []
  | x :: l' =>
      match f x with
      | Throw e => Throw e
      | Ok y =>
          match Array_map f l' with
          | Throw e => Throw e
          | Ok ys => Ok (y :: ys)
          end
      end
  end.

(** The [result] property of a response body. *)
Inductive ResultField : Type :=
| RUndefined                          (* the body has no [result] *)
| RNull
| RString (s : string)
| RArray (records : list EtherscanLog.t)
| ROther (length : option Z).
  (* a number, boolean or object; [length] is the value of its
     [length] property when that is an integer *)

Module Body.
Record t : Type := mk { result : ResultField }.
End Body.

(** [data.result?.length]: [None] is [undefined]. *)
Definition optional_length (r : ResultField) : option Z :=
  match r with
  | RUndefined | RNull => None
  | RString s => Some (JsString.length s)
  | RArray records => Some (Z.of_nat (List.length records))
  | ROther len => len
  end.

Module Request.
Record t : Type := mk { url : string; params : Query.t }.
End Request.

(** What one HTTP GET comes to: a response body, or a rejection. *)
Inductive HttpOutcome : Type :=
| Response (data : Body.t)
| Rejected (e : exn).

(** The world: the requests sent so far, oldest first. *)
Definition World : Type := list Request.t.

(** How an asynchronous call ends. *)
Inductive outcome (A : Type) : Type :=
| Returned (a : A)
| Thrown (e : exn)
| OutOfFuel.
Arguments Returned {A} a.
Arguments Thrown {A} e.
Arguments OutOfFuel {A}.

Definition M (A : Type) : Type := World -> outcome A * World.

Definition ret {A} (a : A) : M A := fun w => (Returned a, w).
Definition throw {A} (e : exn) : M A := fun w => (Thrown e, w).
Definition outOfFuel {A} : M A := fun w => (OutOfFuel, w).

Definition bind {A B} (m : M A) (k : A -> M B) : M B :=
  fun w =>
    match m w with
    | (Returned a, w') => k a w'
    | (Thrown e, w') => (Thrown e, w')
    | (OutOfFuel, w') => (OutOfFuel, w')
    end.

Definition lift {A} (r : result A) : M A :=
  match r with
  | Ok a => ret a
  | Throw e => throw e
  end.

Declare Scope async_scope.
Delimit Scope async_scope with async.
Notation "'await' x <- m ; k" := (bind m (fun x => k))
  (at level 10, x name, m at level 100, k at level 200) : async_scope.

(** ** Collaborators outside the file *)

(** The imports from [lib/utils/chains] and viem's [getAddress], which
    either returns the checksummed address or throws. *)
Class Externals : Type := {
  RateLimit : Type;
  ETHERSCAN_SUPPORTED_CHAINS : list Z;
  getChainApiIdentifer : Z -> string;
  getChainApiKey : Z -> option string;
  getChainApiRateLimit : Z -> RateLimit;
  getChainApiUrl : Z -> string;
  getAddress : string -> result string
}.

(** The provider: its answer to a request may depend on every request
    it has seen before. *)
Class Network : Type := {
  respond : World -> Request.t -> HttpOutcome
}.

Section Model.

Context `{Externals} `{Network}.

Local Open Scope async_scope.

Definition formatEtherscanEvent (etherscanLog : EtherscanLog.t)
    : result Log.t :=
  match getAddress (EtherscanLog.address etherscanLog) with
  | Throw e => Throw e
  | Ok address =>
      Ok {| Log.address := address;
            Log.topics :=
              List.filter truthy (EtherscanLog.topics etherscanLog);
            Log.data := EtherscanLog.data etherscanLog;
            Log.transactionHash :=
              EtherscanLog.transactionHash etherscanLog;
            Log.blockNumber :=
              JsNumber.parseInt (EtherscanLog.blockNumber etherscanLog) 16;
            Log.transactionIndex :=
              JsNumber.parseInt
                (EtherscanLog.transactionIndex etherscanLog) 16;
            Log.logIndex :=
              JsNumber.parseInt (EtherscanLog.logIndex etherscanLog) 16;
            Log.timestamp :=
              JsNumber.parseInt (EtherscanLog.timeStamp etherscanLog) 16 |}
  end.

(** [...data.result.map(formatEtherscanEvent)], the first element of
    the array literal of the pagination branch: only an array has a
    [map] method.  The messages are those of the V8 engine for a call
    in spread position. *)
Definition result_map (r : ResultField) : result (list Log.t) :=
  match r with
  | RArray records => Array_map formatEtherscanEvent records
  | RUndefined =>
      Throw (TypeError "Cannot read properties of undefined (reading 'map')")
  | RNull =>
      Throw (TypeError "Cannot read properties of null (reading 'map')")
  | RString _ | ROther _ =>
      Throw (TypeError
        "data.result.map is not a function or its return value is not iterable")
  end.

(** [axios.get(apiUrl, { params: query })]: the request is recorded
    and the provider answers it. *)
Definition axios_get (apiUrl : string) (query : Query.t) : M Body.t :=
  fun w =>
    let request := {| Request.url := apiUrl; Request.params := query |} in
    match respond w request with
    | Response data => (Returned data, (w ++ [request])%list)
    | Rejected e => (Thrown e, (w ++ [request])%list)
    end.

Record RequestQueue : Type := {
  identifier : string;
  rateLimit : RateLimit
}.

(** Modelled from the spec: [RequestQueue.add] of [./RequestQueue],
    which is not among the sources.  "submit(operation) -> eventual
    result of operation"; the queue "never swallows or retries
    failures", "it only controls when an operation is allowed to
    start".  Time is not modelled, so the operation simply runs.  A
    missing queue ([this.queues[chainId]] is [undefined]) makes the
    method call throw. *)
Definition RequestQueue_add {A} (queue : option RequestQueue) (fn : M A)
    : M A :=
  match queue with
  | Some _ => fn
  | None =>
      throw (TypeError "Cannot read properties of undefined (reading 'add')")
  end.

Record EtherscanEventGetter : Type := {
  queues : gmap Z RequestQueue
}.

Definition constructor : EtherscanEventGetter :=
  let queueEntries :=
    map (fun chainId =>
           (chainId,
            {| identifier := getChainApiIdentifer chainId;
               rateLimit := getChainApiRateLimit chainId |}))
        ETHERSCAN_SUPPORTED_CHAINS in
  {| queues := list_to_map queueEntries |}.

(** Certain Blockscout instances answer 429 instead of a 200 response
    carrying the error message: retry the same call. *)
Fixpoint retryOn429 {T} (fuel : nat) (fn : M T) : M T :=
  match fuel with
  | O => outOfFuel
  | S fuel' =>
      fun w =>
        match fn w with
        | (Thrown e, w') =>
            if JsString.includes (message e) "429"
            then retryOn429 fuel' fn w'
            else (Thrown e, w')
        | other => other
        end
  end.

(** [async getEvents(chainId, filter, page = 1)].  [page = None] is a
    call that leaves the third argument out.  The test
    [filter.fromBlock === filter.toBlock] holds for two equal block
    numbers and for two absent ones.  [console.log] and [console.error]
    are not modelled. *)
Fixpoint getEvents (this : EtherscanEventGetter) (fuel : nat)
    (chainId : Z) (filter : Filter.t) (page : option Z)
    : M (list Log.t) :=
  match fuel with
  | O => outOfFuel
  | S fuel' =>
      let page := default 1 page in
      let apiUrl := getChainApiUrl chainId in
      let apiKey := getChainApiKey chainId in
      let queue := queues this !! chainId in
      let query := prepareEtherscanGetLogsQuery filter page apiKey in
      await data <-
        retryOn429 fuel (RequestQueue_add queue (axios_get apiUrl query));
      if bool_decide (optional_length (Body.result data) = Some 1000) then
        if bool_decide (Filter.fromBlock filter = Filter.toBlock filter) then
          await current <- lift (result_map (Body.result data));
          await later <-
            getEvents this fuel' chainId filter (Some (page + 1));
          ret (current ++ later)%list
        else throw (Error "Log response size exceeded")
      else
        match Body.result data with
        | RString s =>
            if JsString.includes s "Max rate limit reached" then
              getEvents this fuel' chainId filter None
            else if JsString.includes s "Query Timeout occured" then
              throw (Error "Log response size exceeded")
            else throw (Error s)
        | RArray records =>
            lift (Array_map formatEtherscanEvent records)
        | RUndefined | RNull | ROther _ =>
            throw (Error "Could not retrieve event logs from the blockchain")
        end
  end.

End Model.

(** The first statement of [getEvents]: build the query for [page] and
    send it through the chain's queue, retrying on 429. *)
Definition fetch `{Externals} `{Network} (this : EtherscanEventGetter)
    (fuel : nat) (chainId : Z) (filter : Filter.t) (page : Z) : M Body.t :=
  retryOn429 fuel
    (RequestQueue_add (queues this !! chainId)
       (axios_get (getChainApiUrl chainId)
          (prepareEtherscanGetLogsQuery filter page (getChainApiKey chainId)))).

(** The request that [getEvents] sends for [page]. *)
Definition request_for `{Externals} (chainId : Z) (filter : Filter.t)
    (page : Z) : Request.t :=
  {| Request.url := getChainApiUrl chainId;
     Request.params :=
       prepareEtherscanGetLogsQuery filter page (getChainApiKey chainId) |}.

(** [FullPages this chainId filter fuel p w pages w']: starting in world
    [w] with [fuel], the fetches of pages [p], [p+1], ... return the
    arrays [pages] one after the other, each of exactly 1000 records,
    and leave the world [w']. *)
Inductive FullPages `{Externals} `{Network} (this : EtherscanEventGetter)
    (chainId : Z) (filter : Filter.t)
    : nat -> Z -> World -> list (list EtherscanLog.t) -> World -> Prop :=
| FullPages_nil fuel p w :
    FullPages this chainId filter fuel p w [] w
| FullPages_cons fuel p w records w1 pages w2 :
    fetch this (S fuel) chainId filter p w
      = (Returned {| Body.result := RArray records |}, w1) ->
    List.length records = 1000%nat ->
    FullPages this chainId filter fuel (p + 1) w1 pages w2 ->
    FullPages this chainId filter (S fuel) p w (records :: pages) w2.

(** A topic position of a filter is present when it holds a truthy
    value: it is not past the end of [topics], not [null] and not the
    empty string. *)
Definition present (filter : Filter.t) (i : nat) : bool :=
  truthy (element (default [] (Filter.topics filter)) i).

(** The combinator parameter [topicX_Y_opr] of a query. *)
Definition opr (q : Query.t) (x y : nat) : option string :=
  match x, y with
  | 0, 1 => Query.topic0_1_opr q
  | 0, 2 => Query.topic0_2_opr q
  | 0, 3 => Query.topic0_3_opr q
  | 1, 2 => Query.topic1_2_opr q
  | 1, 3 => Query.topic1_3_opr q
  | 2, 3 => Query.topic2_3_opr q
  | _, _ => None
  end%nat.

Definition positionPairs : list (nat * nat) :=
  [(0, 1); (0, 2); (0, 3); (1, 2); (1, 3); (2, 3)]%nat.

(** What radix-16 [parseInt] reads after the white space, the sign and
    the 0x prefix. *)
Definition hexBody (s : string) : string :=
  let S1 := snd (JsNumber.readSign (JsString.trimStart s)) in
  if JsNumber.hasHexPrefix S1 then JsNumber.dropTwo S1 else S1.

(** ** Concrete collaborators for the closed examples *)

Module Sample.

Definition isHexDigit (c : ascii) : bool :=
  match JsNumber.digitValue c with
  | Some d => d <? 16
  | None => false
  end.

Fixpoint allHex (s : string) : bool :=
  match s with
  | EmptyString => true
  | String c s' => isHexDigit c && allHex s'
  end.

(** viem's shape test: 0x followed by forty hexadecimal digits. *)
Definition isAddress (a : string) : bool :=
  match a with
  | String "0"%char (String "x"%char body) =>
      (String.length body =? 40)%nat && allHex body
  | _ => false
  end.

(** A stand-in for viem's [getAddress]: it rejects what viem rejects
    and returns the accepted text as it is.  The examples below use
    addresses without letters only, which checksumming leaves
    unchanged. *)
Definition sampleGetAddress (a : string) : result string :=
  if isAddress a then Ok a else Throw (InvalidAddressError a).

Definition externals : Externals := {|
  RateLimit := Z;
  ETHERSCAN_SUPPORTED_CHAINS := [1; 56];
  getChainApiIdentifer := fun chainId =>
    if chainId =? 1 then "api.etherscan.io" else "api.bscscan.com";
  getChainApiKey := fun _ => Some "KEY";
  getChainApiRateLimit := fun _ => 5;
  getChainApiUrl := fun chainId =>
    if chainId =? 1 then "https://api.etherscan.io/api"
    else "https://api.bscscan.com/api";
  getAddress := sampleGetAddress
|}.

Definition zeroAddress : string :=
  "0x0000000000000000000000000000000000000000".

Definition record (blockNumber : string) (topics : list JsValue)
    : EtherscanLog.t :=
  {| EtherscanLog.address := zeroAddress;
     EtherscanLog.topics := topics;
     EtherscanLog.data := "0x";
     EtherscanLog.transactionHash := "0x01";
     EtherscanLog.blockNumber := blockNumber;
     EtherscanLog.transactionIndex := "0x2";
     EtherscanLog.logIndex := "0x3";
     EtherscanLog.timeStamp := "0x5f5e100" |}.

Definition body (r : ResultField) : HttpOutcome :=
  Response {| Body.result := r |}.

(** A provider that holds three pages: two full ones and a last one
    of two records; it answers by page number. *)
Definition page1 : list EtherscanLog.t := List.repeat (record "0x1a" []) 1000.
Definition page2 : list EtherscanLog.t := List.repeat (record "0x1b" []) 1000.
Definition page3 : list EtherscanLog.t := List.repeat (record "0x1c" []) 2.

Definition pagedNetwork : Network := {|
  respond := fun _ request =>
    let p := Query.page (Request.params request) in
    if p =? 1 then body (RArray page1)
    else if p =? 2 then body (RArray page2)
    else if p =? 3 then body (RArray page3)
    else body (RArray [])
|}.

(** A provider that answers its first request with the in-body
    rate-limit message and every later one with an empty array. *)
Definition rateLimitedOnce : Network := {|
  respond := fun w _ =>
    match w with
    | [] => body (RString "Max rate limit reached")
    | _ => body (RArray [])
    end
|}.

(** A provider that always answers with the same result. *)
Definition constantNetwork (r : ResultField) : Network := {|
  respond := fun _ _ => body r
|}.

(** A provider that rejects its first request with status 429 and
    then answers with [r]. *)
Definition busyOnce (r : ResultField) : Network := {|
  respond := fun w _ =>
    match w with
    | [] => Rejected (Error "Request failed with status code 429")
    | _ => body r
    end
|}.

(** An error text of exactly 1000 characters without either marker. *)
Definition longMessage : string := JsString.repeat "x"%char 1000.

Definition singleBlock : Filter.t :=
  {| Filter.fromBlock := Some 100;
     Filter.toBlock := Some 100;
     Filter.topics := Some [JsStr "0xABC"] |}.

Definition blockRange : Filter.t :=
  {| Filter.fromBlock := Some 100;
     Filter.toBlock := Some 200;
     Filter.topics := Some [JsStr "0xabc"; JsNull; JsStr "0xdef"] |}.

Definition getter : @EtherscanEventGetter externals :=
  @constructor externals.

(** [getEvents] of the sample getter against a given provider. *)
Definition run (network : Network) :=
  @getEvents externals network getter.

(** The request the sample getter sends on chain 1. *)
Definition request (filter : Filter.t) (page : Z) : Request.t :=
  @request_for externals 1 filter page.

(** What [record blockNumber []] normalizes to. *)
Definition log (blockNumber : number) : Log.t :=
  {| Log.address := zeroAddress;
     Log.topics := [];
     Log.data := "0x";
     Log.transactionHash := "0x01";
     Log.blockNumber := blockNumber;
     Log.transactionIndex := Int 2;
     Log.logIndex := Int 3;
     Log.timestamp := Int 100000000 |}.

(** A provider with a full first page and a second page of two
    records, which answers the first request for page 2 with the
    in-body rate-limit message. *)
Definition rateLimitedOnSecondPage : Network := {|
  respond := fun w request =>
    let p := Query.page (Request.params request) in
    if p =? 1 then body (RArray page1)
    else if existsb (fun r => Query.page (Request.params r) =? 2) w
    then body (RArray page3)
    else body (RString "Max rate limit reached")
|}.

End Sample.

(** ** Notions used to state further properties *)

(** The six combinator parameters of a query, in the order of the
    object literal. *)
Definition combinators (q : Query.t) : list (option string) :=
  [Query.topic0_1_opr q; Query.topic0_2_opr q; Query.topic0_3_opr q;
   Query.topic1_2_opr q; Query.topic1_3_opr q; Query.topic2_3_opr q].

Definition isDefined (o : option string) : bool :=
  match o with
  | Some _ => true
  | None => false
  end.

(** What the answer to one GET makes of the promise of [axios.get]. *)
Definition settle (answer : HttpOutcome) : outcome Body.t :=
  match answer with
  | Response data => Returned data
  | Rejected e => Thrown e
  end.

(** Is the answer a rejection whose message holds '429'? *)
Definition is429 (answer : HttpOutcome) : bool :=
  match answer with
  | Response _ => false
  | Rejected e => JsString.includes (message e) "429"
  end.

(** The requests for the [n] pages from page [p] on, in order. *)
Definition requests_from `{Externals} (chainId : Z) (filter : Filter.t)
    (p : Z) (n : nat) : list Request.t :=
  map (fun i => request_for chainId filter (p + Z.of_nat i)) (seq 0 n).


Module Scenario.

(** A provider that rejects every request with status 429. *)
Definition alwaysBusy : Network := {|
  respond := fun _ _ => Rejected (Error "Request failed with status code 429")
|}.

(** The queue of chain 1 and a request that goes through it. *)
Definition queue : @RequestQueue Sample.externals :=
  @Build_RequestQueue Sample.externals "api.etherscan.io" (5 : Z).

Definition query : Query.t :=
  prepareEtherscanGetLogsQuery Sample.blockRange 1 None.

Definition request : Request.t :=
  {| Request.url := "https://api.etherscan.io/api";
     Request.params := query |}.

(** A provider with a full first page whose every other page is the
    error text 'boom'. *)
Definition failsAfterFirstPage : Network := {|
  respond := fun _ r =>
    if Query.page (Request.params r) =? 1
    then Sample.body (RArray Sample.page1)
    else Sample.body (RString "boom")
|}.

(** A record whose address viem rejects. *)
Definition badRecord : EtherscanLog.t :=
  {| EtherscanLog.address := "0xnothex";
     EtherscanLog.topics := [JsStr "0xabc"];
     EtherscanLog.data := "0x";
     EtherscanLog.transactionHash := "0x02";
     EtherscanLog.blockNumber := "0x1";
     EtherscanLog.transactionIndex := "0x0";
     EtherscanLog.logIndex := "0x0";
     EtherscanLog.timeStamp := "0x0" |}.

(** A filter with five topics, the first written in capitals. *)
Definition fiveTopics : Filter.t :=
  {| Filter.fromBlock := Some 1;
     Filter.toBlock := None;
     Filter.topics :=
       Some [JsStr "0xDDF2"; JsNull; JsStr "0xAb"; JsStr "0xcd";
             JsStr "0xee"] |}.

(** The same filter with four topics in lowercase. *)
Definition fourTopics : Filter.t :=
  {| Filter.fromBlock := Some 1;
     Filter.toBlock := None;
     Filter.topics :=
       Some [JsStr "0xddf2"; JsNull; JsStr "0xab"; JsStr "0xcd"] |}.

End Scenario.

(** * Properties *)

(** ** Strings and numbers *)

Lemma toLowerCase_empty_iff (s : string) :
  String.eqb (JsString.toLowerCase s) "" = String.eqb s "".
Proof. destruct s; reflexivity. Qed.

Lemma parseInt_0x1a : JsNumber.parseInt "0x1a" 16 = Int 26.
Proof. reflexivity. Qed.

Lemma parseInt_no_prefix : JsNumber.parseInt "ff" 16 = Int 255.
Proof. reflexivity. Qed.

Lemma parseInt_partial : JsNumber.parseInt "0x1aZZ" 16 = Int 26.
Proof. reflexivity. Qed.

Lemma parseInt_rounds_to_double :
  JsNumber.parseInt "20000000000001" 16 = Int (2 ^ 53).
Proof. reflexivity. Qed.

Lemma ofMathInt_not_NaN (sign m : Z) : JsNumber.ofMathInt sign m <> NaN.
Proof.
  unfold JsNumber.ofMathInt.
  destruct (m =? 0); [destruct (sign =? -1); discriminate |].
  cbv zeta. destruct (2 ^ 1024 <=? JsNumber.round53 m); discriminate.
Qed.

(** Radix-16 [parseInt] gives NaN exactly when no hexadecimal digit
    stands where the number should begin. *)
Lemma parseInt16_NaN_iff (s : string) :
  JsNumber.parseInt s 16 = NaN <-> JsNumber.radixDigits 16 (hexBody s) = [].
Proof.
  unfold JsNumber.parseInt, hexBody.
  destruct (JsNumber.readSign (JsString.trimStart s)) as [sign S1].
  cbn [snd]. change (negb (16 =? 0) && ((16 <? 2) || (36 <? 16))) with false.
  change ((16 =? 0) || (16 =? 16)) with true. cbv iota. cbn [andb].
  change (if 16 =? 0 then 10 else 16) with 16.
  assert (Hcore : forall S2,
    match JsNumber.radixDigits 16 S2 with
    | [] => NaN
    | ds => JsNumber.ofMathInt sign (JsNumber.mathInt 16 ds)
    end = NaN <-> JsNumber.radixDigits 16 S2 = []).
  { intros S2. destruct (JsNumber.radixDigits 16 S2) eqn:E.
    - split; reflexivity.
    - split; [intros Hn; exfalso; exact (ofMathInt_not_NaN _ _ Hn)
             | discriminate]. }
  destruct (JsNumber.hasHexPrefix S1); apply Hcore.
Qed.

(** ** The query builder *)

Lemma truthy_lowerTopic (v : JsValue) : truthy (lowerTopic v) = truthy v.
Proof. destruct v; cbn; [reflexivity .. | | reflexivity].
  now rewrite toLowerCase_empty_iff. Qed.

Lemma element_map_lowerTopic (l : list JsValue) (i : nat) :
  element (map lowerTopic l) i = lowerTopic (element l i).
Proof.
  unfold element. revert i.
  induction l as [|v l IH]; intros [|i]; cbn; auto.
Qed.

Lemma and_or_undefined_js_and (a b : JsValue) :
  and_or_undefined (js_and a b) =
  if truthy a && truthy b then Some "and" else None.
Proof.
  unfold and_or_undefined, js_and.
  destruct (truthy a) eqn:Ea; cbn; [reflexivity | now rewrite Ea].
Qed.

Lemma opr_prepare (filter : Filter.t) (page : Z) (apiKey : option string)
    (x y : nat) :
  In (x, y) positionPairs ->
  opr (prepareEtherscanGetLogsQuery filter page apiKey) x y =
  if present filter x && present filter y then Some "and" else None.
Proof.
  intros Hin.
  assert (Hopr :
    opr (prepareEtherscanGetLogsQuery filter page apiKey) x y =
    and_or_undefined
      (js_and
         (element (map lowerTopic (default [] (Filter.topics filter))) x)
         (element (map lowerTopic (default [] (Filter.topics filter))) y))).
  { cbn in Hin.
    repeat (destruct Hin as [Heq | Hin];
            [injection Heq as <- <-; reflexivity |]).
    contradiction. }
  rewrite Hopr, and_or_undefined_js_and, !element_map_lowerTopic,
    !truthy_lowerTopic.
  reflexivity.
Qed.

(** C8: the query's fromBlock is the filter's fromBlock when present and
    0 when absent; its toBlock is the filter's toBlock when present and
    the 'latest' sentinel when absent. *)
Theorem query_block_range_defaults
    (filter : Filter.t) (page : Z) (apiKey : option string) :
  let q := prepareEtherscanGetLogsQuery filter page apiKey in
  Query.fromBlock q =
    match Filter.fromBlock filter with Some n => n | None => 0 end
  /\ Query.toBlock q =
    match Filter.toBlock filter with
    | Some n => BlockNumber n
    | None => Latest
    end.
Proof. split; cbn; destruct filter as [[n|] [m|] ts]; reflexivity. Qed.

(** C6, as stated, fails: a single topic written with capital letters is
    not sent as it is, the query carries its lowercase form. *)
Lemma topic0_is_lowercased :
  let a := JsStr "0xABC" in
  let filter :=
    {| Filter.fromBlock := None; Filter.toBlock := None;
       Filter.topics := Some [a] |} in
  Query.topic0 (prepareEtherscanGetLogsQuery filter 1 None) <> a
  /\ Query.topic0 (prepareEtherscanGetLogsQuery filter 1 None)
     = JsStr "0xabc".
Proof. split; [discriminate | reflexivity]. Qed.

(** C6 (amended): each of the six combinators topicX_Y_opr is 'and'
    exactly when the topics at positions X and Y are both present (hold
    a truthy value) and is left out otherwise; a filter with the single
    topic [a] yields topic0 = [a] in lowercase and no combinator; a
    filter with four present topics yields all six combinators 'and'. *)
Theorem query_pairwise_combinators
    (filter : Filter.t) (page : Z) (apiKey : option string) :
  let q := prepareEtherscanGetLogsQuery filter page apiKey in
  (forall x y, In (x, y) positionPairs ->
     (opr q x y = Some "and" <->
        present filter x = true /\ present filter y = true)
     /\ (opr q x y = None \/ opr q x y = Some "and"))
  /\ (forall a, Filter.topics filter = Some [a] ->
        Query.topic0 q = lowerTopic a
        /\ forall x y, In (x, y) positionPairs -> opr q x y = None)
  /\ (forall a b c d, Filter.topics filter = Some [a; b; c; d] ->
        truthy a = true -> truthy b = true ->
        truthy c = true -> truthy d = true ->
        forall x y, In (x, y) positionPairs -> opr q x y = Some "and").
Proof.
  cbv zeta. split; [| split].
  - intros x y Hin. rewrite (opr_prepare _ _ _ _ _ Hin).
    destruct (present filter x), (present filter y); cbn;
      intuition (auto; discriminate).
  - intros a Htopics. split.
    + unfold prepareEtherscanGetLogsQuery. rewrite Htopics. reflexivity.
    + intros x y Hin. rewrite (opr_prepare _ _ _ _ _ Hin).
      unfold present. rewrite Htopics. cbn in Hin.
      repeat (destruct Hin as [Heq | Hin];
              [injection Heq as <- <-; cbn;
               try reflexivity; now rewrite andb_false_r |]).
      contradiction.
  - intros a b c d Htopics Ha Hb Hc Hd x y Hin.
    rewrite (opr_prepare _ _ _ _ _ Hin).
    unfold present. rewrite Htopics. cbn in Hin.
    repeat (destruct Hin as [Heq | Hin];
            [injection Heq as <- <-; cbn;
             now rewrite ?Ha, ?Hb, ?Hc, ?Hd |]).
    contradiction.
Qed.

Lemma query_pairwise_combinators_witness :
  let filter :=
    {| Filter.fromBlock := Some 7; Filter.toBlock := None;
       Filter.topics :=
         Some [JsStr "0xAA"; JsStr "0xbb"; JsStr "0xcc"; JsStr "0xdd"] |} in
  Query.topic1_3_opr (prepareEtherscanGetLogsQuery filter 1 (Some "KEY"))
  = Some "and".
Proof.
  apply (proj2 (proj2 (query_pairwise_combinators
                  {| Filter.fromBlock := Some 7; Filter.toBlock := None;
                     Filter.topics :=
                       Some [JsStr "0xAA"; JsStr "0xbb"; JsStr "0xcc";
                             JsStr "0xdd"] |} 1 (Some "KEY")))
           (JsStr "0xAA") (JsStr "0xbb") (JsStr "0xcc") (JsStr "0xdd")
           eq_refl eq_refl eq_refl eq_refl eq_refl 1%nat 3%nat).
  cbn. tauto.
Defined.

(** ** The normaliser *)

Lemma filter_sublist {A} (f : A -> bool) (l : list A) :
  List.filter f l `sublist_of` l.
Proof.
  induction l as [|x l IH]; cbn; [constructor |].
  destruct (f x); now constructor.
Qed.

Lemma filter_Forall {A} (f : A -> bool) (l : list A) :
  Forall (fun x => f x = true) (List.filter f l).
Proof.
  induction l as [|x l IH]; cbn; [constructor |].
  destruct (f x) eqn:E; [constructor |]; assumption.
Qed.

Lemma filter_greatest {A} (f : A -> bool) (k l : list A) :
  k `sublist_of` l -> Forall (fun x => f x = true) k ->
  k `sublist_of` List.filter f l.
Proof.
  induction 1 as [| x k l Hsub IH | x k l Hsub IH]; intros Hall; cbn.
  - constructor.
  - inversion Hall as [| ? ? Hx Hk]; subst. rewrite Hx.
    constructor. now apply IH.
  - destruct (f x); [constructor |]; now apply IH.
Qed.

Lemma Array_map_length {A B} (f : A -> result B) (l : list A) (ys : list B) :
  Array_map f l = Ok ys -> List.length ys = List.length l.
Proof.
  revert ys. induction l as [|x l IH]; cbn; intros ys Hmap.
  - now inversion Hmap.
  - destruct (f x); [| discriminate].
    destruct (Array_map f l) as [ys' |]; [| discriminate].
    inversion Hmap; subst. cbn. f_equal. now apply IH.
Qed.

Lemma Array_map_total {A B} (f : A -> result B) (l : list A) :
  Forall (fun x => exists y, f x = Ok y) l ->
  exists ys, Array_map f l = Ok ys.
Proof.
  induction 1 as [| x l [y Hy] _ [ys Hys]]; cbn.
  - now exists [].
  - rewrite Hy, Hys. now exists (y :: ys).
Qed.

Section Normaliser.

Context `{Externals}.

Lemma formatEtherscanEvent_Ok (raw : EtherscanLog.t) (a : string) :
  getAddress (EtherscanLog.address raw) = Ok a ->
  formatEtherscanEvent raw =
  Ok {| Log.address := a;
        Log.topics := List.filter truthy (EtherscanLog.topics raw);
        Log.data := EtherscanLog.data raw;
        Log.transactionHash := EtherscanLog.transactionHash raw;
        Log.blockNumber :=
          JsNumber.parseInt (EtherscanLog.blockNumber raw) 16;
        Log.transactionIndex :=
          JsNumber.parseInt (EtherscanLog.transactionIndex raw) 16;
        Log.logIndex := JsNumber.parseInt (EtherscanLog.logIndex raw) 16;
        Log.timestamp :=
          JsNumber.parseInt (EtherscanLog.timeStamp raw) 16 |}.
Proof. intros Ha. unfold formatEtherscanEvent. now rewrite Ha. Qed.

Lemma formatEtherscanEvent_inv (raw : EtherscanLog.t) (log : Log.t) :
  formatEtherscanEvent raw = Ok log ->
  exists a, getAddress (EtherscanLog.address raw) = Ok a.
Proof.
  unfold formatEtherscanEvent.
  destruct (getAddress (EtherscanLog.address raw)) as [a |];
    [eauto | discriminate].
Qed.

(** C9: a record whose address is accepted is normalized to a Log
    whose topics are the record's topics without the empty or falsy
    entries, in their original order: they form a subsequence of the
    record's topics, hold truthy entries only, and every subsequence of
    truthy entries is a subsequence of them; the topics "0xabc", "",
    "0xdef" become "0xabc", "0xdef", and the field "0x1a" decodes to
    26. *)
Theorem normalized_topics_drop_falsy
    (raw : EtherscanLog.t) (a : string) :
  getAddress (EtherscanLog.address raw) = Ok a ->
  exists log,
    formatEtherscanEvent raw = Ok log
    /\ Log.topics log `sublist_of` EtherscanLog.topics raw
    /\ Forall (fun t => truthy t = true) (Log.topics log)
    /\ (forall k, k `sublist_of` EtherscanLog.topics raw ->
                  Forall (fun t => truthy t = true) k ->
                  k `sublist_of` Log.topics log)
    /\ (EtherscanLog.topics raw = [JsStr "0xabc"; JsStr ""; JsStr "0xdef"] ->
        Log.topics log = [JsStr "0xabc"; JsStr "0xdef"])
    /\ (EtherscanLog.blockNumber raw = "0x1a" ->
        Log.blockNumber log = Int 26).
Proof.
  intros Ha. eexists.
  split; [exact (formatEtherscanEvent_Ok _ _ Ha) |].
  cbn [Log.topics Log.blockNumber].
  split; [| split; [| split; [| split]]].
  - apply filter_sublist.
  - apply filter_Forall.
  - intros k. apply filter_greatest.
  - intros ->. reflexivity.
  - intros ->. reflexivity.
Qed.

(** C2 (amended): a record whose address is accepted is normalized to
    a Log whatever text its four integer fields hold; no error is
    raised for a field that is not hexadecimal text.  Each of the four
    fields of the Log is the result of radix-16 parseInt on the
    record's text, and that result is NaN exactly when no hexadecimal
    digit stands after the optional white space, sign and 0x prefix.
    A page of records with accepted addresses is normalized in full,
    one Log per record. *)
Theorem integer_fields_never_raise (raw : EtherscanLog.t) :
  (forall a, getAddress (EtherscanLog.address raw) = Ok a ->
     exists log,
       formatEtherscanEvent raw = Ok log
       /\ Log.blockNumber log
          = JsNumber.parseInt (EtherscanLog.blockNumber raw) 16
       /\ Log.transactionIndex log
          = JsNumber.parseInt (EtherscanLog.transactionIndex raw) 16
       /\ Log.logIndex log
          = JsNumber.parseInt (EtherscanLog.logIndex raw) 16
       /\ Log.timestamp log
          = JsNumber.parseInt (EtherscanLog.timeStamp raw) 16)
  /\ (forall text,
        JsNumber.parseInt text 16 = NaN
        <-> JsNumber.radixDigits 16 (hexBody text) = [])
  /\ (forall records,
        Forall (fun r => exists a,
                  getAddress (EtherscanLog.address r) = Ok a) records ->
        exists logs,
          Array_map formatEtherscanEvent records = Ok logs
          /\ List.length logs = List.length records).
Proof.
  split; [| split].
  - intros a Ha. eexists. split; [apply (formatEtherscanEvent_Ok _ _ Ha) |].
    cbn. repeat split.
  - apply parseInt16_NaN_iff.
  - intros records Hall.
    destruct (Array_map_total formatEtherscanEvent records) as [logs Hlogs].
    + eapply Forall_impl; [exact Hall |]. intros r [a Ha].
      eexists. apply (formatEtherscanEvent_Ok _ _ Ha).
    + exists logs. split; [exact Hlogs |].
      now apply Array_map_length in Hlogs.
Qed.

End Normaliser.

(** The record of the specification's example, with an empty topic
    between two others. *)
Lemma normalized_topics_drop_falsy_witness :
  let raw := Sample.record "0x1a" [JsStr "0xabc"; JsStr ""; JsStr "0xdef"] in
  exists log,
    @formatEtherscanEvent Sample.externals raw = Ok log
    /\ Log.topics log = [JsStr "0xabc"; JsStr "0xdef"]
    /\ Log.blockNumber log = Int 26.
Proof.
  destruct (@normalized_topics_drop_falsy Sample.externals
              (Sample.record "0x1a" [JsStr "0xabc"; JsStr ""; JsStr "0xdef"])
              Sample.zeroAddress eq_refl)
    as (log & Hlog & _ & _ & _ & Htopics & Hblock).
  exists log.
  split; [exact Hlog |].
  split; [exact (Htopics eq_refl) | exact (Hblock eq_refl)].
Defined.

Lemma integer_fields_never_raise_witness :
  exists log,
    @formatEtherscanEvent Sample.externals (Sample.record "0x1g" []) = Ok log
    /\ Log.blockNumber log = Int 1.
Proof.
  destruct (proj1 (@integer_fields_never_raise Sample.externals
                     (Sample.record "0x1g" []))
              Sample.zeroAddress eq_refl) as (log & Hlog & Hblock & _).
  exists log. split; [exact Hlog | exact Hblock].
Defined.

(** C2, as stated, fails: a record whose blockNumber is not hexadecimal
    text normalizes without an error, its blockNumber is NaN, and the
    page that holds it normalizes in full. *)
Lemma unparsable_field_gives_NaN :
  let bad := Sample.record "zz" [] in
  JsNumber.radixDigits 16 (hexBody (EtherscanLog.blockNumber bad)) = []
  /\ (exists log,
        @formatEtherscanEvent Sample.externals bad = Ok log
        /\ Log.blockNumber log = NaN)
  /\ (exists logs,
        Array_map (@formatEtherscanEvent Sample.externals)
          [Sample.record "0x1a" []; bad] = Ok logs
        /\ map Log.blockNumber logs = [Int 26; NaN]).
Proof.
  split; [reflexivity |].
  split; eexists; (split; [reflexivity |]); reflexivity.
Qed.

(** ** The orchestrator *)

Section Orchestrator.

Context `{Externals} `{Network}.
Variables (this : EtherscanEventGetter) (chainId : Z) (filter : Filter.t).

Local Open Scope async_scope.

Lemma getEvents_fetch_unfold (fuel : nat) (page : option Z) (w : World) :
  forall data w1,
    fetch this (S fuel) chainId filter (default 1 page) w
      = (Returned data, w1) ->
    getEvents this (S fuel) chainId filter page w =
    (if bool_decide (optional_length (Body.result data) = Some 1000) then
       if bool_decide (Filter.fromBlock filter = Filter.toBlock filter) then
         await current <- lift (result_map (Body.result data));
         await later <-
           getEvents this fuel chainId filter (Some (default 1 page + 1));
         ret (current ++ later)%list
       else throw (Error "Log response size exceeded")
     else
       match Body.result data with
       | RString s =>
           if JsString.includes s "Max rate limit reached" then
             getEvents this fuel chainId filter None
           else if JsString.includes s "Query Timeout occured" then
             throw (Error "Log response size exceeded")
           else throw (Error s)
       | RArray records => lift (Array_map formatEtherscanEvent records)
       | RUndefined | RNull | ROther _ =>
           throw (Error "Could not retrieve event logs from the blockchain")
       end) w1.
Proof.
  intros data w1 Hfetch. unfold fetch in Hfetch.
  cbn [getEvents]. unfold bind at 1. rewrite Hfetch. reflexivity.
Qed.

Lemma getEvents_fetch_fails (fuel : nat) (page : option Z) (w : World) :
  forall o w1,
    fetch this (S fuel) chainId filter (default 1 page) w = (o, w1) ->
    (forall data, o <> Returned data) ->
    exists o', getEvents this (S fuel) chainId filter page w = (o', w1)
               /\ forall logs, o' <> Returned logs.
Proof.
  intros o w1 Hfetch Hno. unfold fetch in Hfetch.
  cbn [getEvents]. unfold bind at 1. rewrite Hfetch.
  destruct o as [data | e |].
  - now destruct (Hno data).
  - exists (Thrown e). split; [reflexivity | discriminate].
  - exists OutOfFuel. split; [reflexivity | discriminate].
Qed.

(** The fetch sends the same request once or several times and
    nothing else; it returns a body only after at least one request. *)
Lemma retryOn429_axios_world (queue : option RequestQueue) (url : string)
    (query : Query.t) (fuel : nat) :
  forall w o w1,
    retryOn429 fuel (RequestQueue_add queue (axios_get url query)) w
      = (o, w1) ->
    exists k,
      w1 = (w ++ List.repeat
              {| Request.url := url; Request.params := query |} k)%list
      /\ (forall data, o = Returned data -> (0 < k)%nat).
Proof.
  induction fuel as [|fuel IH]; intros w o w1 Hrun; cbn in Hrun.
  - injection Hrun as <- <-. exists 0%nat. cbn.
    split; [now rewrite app_nil_r | discriminate].
  - destruct queue as [q |]; cbn in Hrun.
    + unfold axios_get in Hrun.
      destruct (respond w _) as [data | e].
      * injection Hrun as <- <-. exists 1%nat. cbn.
        split; [reflexivity | intros; lia].
      * destruct (JsString.includes (message e) "429").
        -- apply IH in Hrun as (k & -> & Hk). exists (S k). cbn.
           split; [now rewrite <- app_assoc | intros; lia].
        -- injection Hrun as <- <-. exists 1%nat. cbn.
           split; [reflexivity | discriminate].
    + injection Hrun as <- <-. exists 0%nat. cbn.
      split; [now rewrite app_nil_r | discriminate].
Qed.

Lemma fetch_world (fuel : nat) (page : Z) (w : World) :
  forall o w1,
    fetch this fuel chainId filter page w = (o, w1) ->
    exists k,
      w1 = (w ++ List.repeat (request_for chainId filter page) k)%list
      /\ (forall data, o = Returned data -> (0 < k)%nat).
Proof. intros o w1. apply retryOn429_axios_world. Qed.

Lemma fetch_no_fuel (page : Z) (w : World) (data : Body.t) (w1 : World) :
  fetch this 0 chainId filter page w <> (Returned data, w1).
Proof. discriminate. Qed.

(** A call that returns has sent at least one request. *)
Lemma getEvents_returned_grows (fuel : nat) :
  forall page w logs w',
    getEvents this fuel chainId filter page w = (Returned logs, w') ->
    (List.length w < List.length w')%nat.
Proof.
  induction fuel as [|fuel IH]; intros page w logs w' Hrun;
    [discriminate |].
  destruct (fetch this (S fuel) chainId filter (default 1 page) w)
    as [o w1] eqn:Hfetch.
  destruct o as [data | e |].
  - rewrite (getEvents_fetch_unfold _ _ _ _ _ Hfetch) in Hrun.
    apply fetch_world in Hfetch as (k & -> & Hk).
    specialize (Hk data eq_refl).
    remember (w ++ List.repeat _ k)%list as w1 eqn:Hw1.
    assert (Hlen : (List.length w < List.length w1)%nat)
      by (subst w1; rewrite length_app, repeat_length; lia).
    clear Hw1.
    destruct (bool_decide _).
    + destruct (bool_decide _); [| discriminate].
      unfold bind at 1 in Hrun.
      destruct (result_map (Body.result data)); cbn in Hrun;
        [| discriminate].
      unfold bind in Hrun.
      destruct (getEvents this fuel chainId filter _ w1)
        as [[later | e |] w2] eqn:Hrec; try discriminate.
      apply IH in Hrec. cbn in Hrun. injection Hrun as _ <-. lia.
    + destruct (Body.result data) as [| | s | records | len];
        try discriminate.
      * destruct (JsString.includes s "Max rate limit reached").
        -- apply IH in Hrun. lia.
        -- destruct (JsString.includes s "Query Timeout occured");
             discriminate.
      * destruct (Array_map formatEtherscanEvent records);
          cbn in Hrun; [| discriminate].
        injection Hrun as _ <-. exact Hlen.
  - destruct (getEvents_fetch_fails _ _ _ _ _ Hfetch) as (o' & Ho' & Hno);
      [discriminate |].
    rewrite Ho' in Hrun. injection Hrun as -> _. now destruct (Hno logs).
  - destruct (getEvents_fetch_fails _ _ _ _ _ Hfetch) as (o' & Ho' & Hno);
      [discriminate |].
    rewrite Ho' in Hrun. injection Hrun as -> _. now destruct (Hno logs).
Qed.

Lemma getEvents_fetch_thrown (fuel : nat) (page : option Z) (w : World) :
  forall e w1,
    fetch this (S fuel) chainId filter (default 1 page) w = (Thrown e, w1) ->
    getEvents this (S fuel) chainId filter page w = (Thrown e, w1).
Proof.
  intros e w1 Hfetch. unfold fetch in Hfetch.
  cbn [getEvents]. unfold bind at 1. now rewrite Hfetch.
Qed.

(** Fuel only bounds the number of retries: a run that ends with a
    value or an exception ends the same way with any larger fuel. *)
Lemma retryOn429_fuel_mono {T} (fn : M T) (fuel : nat) :
  forall w o w',
    retryOn429 fuel fn w = (o, w') -> o <> OutOfFuel ->
    forall fuel', (fuel <= fuel')%nat -> retryOn429 fuel' fn w = (o, w').
Proof.
  induction fuel as [|fuel IH]; intros w o w' Hrun Hne fuel' Hle.
  - injection Hrun as <- <-. now destruct Hne.
  - destruct fuel' as [|fuel']; [lia |].
    cbn in Hrun |- *.
    destruct (fn w) as [[a | e |] w1]; try exact Hrun.
    destruct (JsString.includes (message e) "429"); [| exact Hrun].
    apply (IH _ _ _ Hrun Hne). lia.
Qed.

Lemma getEvents_fuel_mono (fuel : nat) :
  forall page w o w',
    getEvents this fuel chainId filter page w = (o, w') -> o <> OutOfFuel ->
    forall fuel', (fuel <= fuel')%nat ->
                  getEvents this fuel' chainId filter page w = (o, w').
Proof.
  induction fuel as [|fuel IH]; intros page w o w' Hrun Hne fuel' Hle.
  - injection Hrun as <- <-. now destruct Hne.
  - destruct fuel' as [|fuel']; [lia |].
    assert (Hle' : (fuel <= fuel')%nat) by lia.
    destruct (fetch this (S fuel) chainId filter (default 1 page) w)
      as [o1 w1] eqn:Hfetch.
    destruct o1 as [data | e |].
    + assert (Hfetch' :
        fetch this (S fuel') chainId filter (default 1 page) w
        = (Returned data, w1))
        by (apply (retryOn429_fuel_mono _ _ _ _ _ Hfetch);
            [discriminate | lia]).
      rewrite (getEvents_fetch_unfold _ _ _ _ _ Hfetch) in Hrun.
      rewrite (getEvents_fetch_unfold _ _ _ _ _ Hfetch').
      destruct (bool_decide _).
      * destruct (bool_decide _); [| exact Hrun].
        unfold bind at 1 in Hrun. unfold bind at 1.
        destruct (lift (result_map (Body.result data)) w1)
          as [[current | e |] w2]; try exact Hrun.
        unfold bind in Hrun |- *.
        destruct (getEvents this fuel chainId filter _ w2)
          as [[later | e |] w3] eqn:Hrec.
        -- rewrite (IH _ _ _ _ Hrec ltac:(discriminate) _ Hle').
           exact Hrun.
        -- rewrite (IH _ _ _ _ Hrec ltac:(discriminate) _ Hle').
           exact Hrun.
        -- injection Hrun as <- _. now destruct Hne.
      * destruct (Body.result data) as [| | s | records | len];
          try exact Hrun.
        destruct (JsString.includes s "Max rate limit reached");
          [| exact Hrun].
        apply (IH _ _ _ _ Hrun Hne _ Hle').
    + rewrite (getEvents_fetch_thrown _ _ _ _ _ Hfetch) in Hrun.
      rewrite <- Hrun. apply getEvents_fetch_thrown.
      apply (retryOn429_fuel_mono _ _ _ _ _ Hfetch); [discriminate | lia].
    + destruct (getEvents_fetch_fails _ _ _ _ _ Hfetch) as (o' & Ho' & _);
        [discriminate |].
      unfold fetch in Hfetch. cbn [getEvents] in Hrun.
      unfold bind at 1 in Hrun. rewrite Hfetch in Hrun.
      injection Hrun as <- _. now destruct Hne.
Qed.

(** Leaving the page argument out is asking for page 1. *)
Lemma getEvents_default_page (fuel : nat) (w : World) :
  getEvents this fuel chainId filter None w
  = getEvents this fuel chainId filter (Some 1) w.
Proof. destruct fuel; reflexivity. Qed.

(** An in-body rate-limit message (of a length other than 1000)
    makes [getEvents] call itself without a page argument: the retry
    asks for page 1, whatever page the call was for. *)
Lemma rate_limited_restarts_at_first_page
    (fuel : nat) (page : option Z) (w : World) (s : string) (w1 : World) :
  fetch this (S fuel) chainId filter (default 1 page) w
    = (Returned {| Body.result := RString s |}, w1) ->
  JsString.length s <> 1000 ->
  JsString.includes s "Max rate limit reached" = true ->
  getEvents this (S fuel) chainId filter page w
  = getEvents this fuel chainId filter (Some 1) w1.
Proof.
  intros Hfetch Hlen Hmark.
  rewrite (getEvents_fetch_unfold _ _ _ _ _ Hfetch).
  cbn [Body.result optional_length].
  rewrite bool_decide_eq_false_2 by congruence.
  rewrite Hmark. apply getEvents_default_page.
Qed.

(** A string result without either marker, of a length other than
    1000, is raised as it is, and nothing more is sent. *)
Lemma other_string_raises_provider_error
    (fuel : nat) (page : option Z) (w : World) (s : string) (w1 : World) :
  fetch this (S fuel) chainId filter (default 1 page) w
    = (Returned {| Body.result := RString s |}, w1) ->
  JsString.length s <> 1000 ->
  JsString.includes s "Max rate limit reached" = false ->
  JsString.includes s "Query Timeout occured" = false ->
  getEvents this (S fuel) chainId filter page w = (Thrown (Error s), w1).
Proof.
  intros Hfetch Hlen Hrate Htime.
  rewrite (getEvents_fetch_unfold _ _ _ _ _ Hfetch).
  cbn [Body.result optional_length].
  rewrite bool_decide_eq_false_2 by congruence.
  now rewrite Hrate, Htime.
Qed.

(** C3: a result of length exactly 1000 is taken as "query too
    large": over a block range the call raises 'Log response size
    exceeded', over a single block it paginates, and it never returns
    on the strength of this response alone.  The length is tested
    first: nothing is assumed about the kind of the result, so the
    same holds when it is a string that the later checks would
    match. *)
Theorem full_page_is_query_too_large
    (fuel : nat) (page : option Z) (w : World) (data : Body.t)
    (w1 : World) :
  fetch this (S fuel) chainId filter (default 1 page) w
    = (Returned data, w1) ->
  optional_length (Body.result data) = Some 1000 ->
  (Filter.fromBlock filter <> Filter.toBlock filter ->
     getEvents this (S fuel) chainId filter page w
     = (Thrown (Error "Log response size exceeded"), w1))
  /\ (Filter.fromBlock filter = Filter.toBlock filter ->
     getEvents this (S fuel) chainId filter page w
     = (await current <- lift (result_map (Body.result data));
        await later <-
          getEvents this fuel chainId filter (Some (default 1 page + 1));
        ret (current ++ later)%list) w1)
  /\ (forall logs,
     getEvents this (S fuel) chainId filter page w <> (Returned logs, w1)).
Proof.
  intros Hfetch Hlen.
  pose proof (getEvents_fetch_unfold _ _ _ _ _ Hfetch) as Hstep.
  rewrite bool_decide_eq_true_2 in Hstep by exact Hlen.
  split; [| split].
  - intros Hne. now rewrite bool_decide_eq_false_2 in Hstep by exact Hne.
  - intros Heq. now rewrite bool_decide_eq_true_2 in Hstep by exact Heq.
  - intros logs Hrun. rewrite Hstep in Hrun.
    destruct (bool_decide _); [| discriminate].
    unfold bind at 1 in Hrun.
    destruct (result_map (Body.result data)); cbn in Hrun;
      [| discriminate].
    unfold bind in Hrun.
    destruct (getEvents this fuel chainId filter _ w1)
      as [[later | e |] w2] eqn:Hrec; try discriminate.
    apply getEvents_returned_grows in Hrec.
    cbn in Hrun. injection Hrun as _ <-. lia.
Qed.

(** C5: over a block range (fromBlock differs from toBlock), a page of
    exactly 1000 records makes [getEvents] raise 'Log response size
    exceeded'; the only requests sent are those of the fetch, all for
    the page that was asked, none for the next one. *)
Theorem full_page_of_range_raises
    (fuel : nat) (page : option Z) (w : World)
    (records : list EtherscanLog.t) (w1 : World) :
  fetch this (S fuel) chainId filter (default 1 page) w
    = (Returned {| Body.result := RArray records |}, w1) ->
  List.length records = 1000%nat ->
  Filter.fromBlock filter <> Filter.toBlock filter ->
  getEvents this (S fuel) chainId filter page w
  = (Thrown (Error "Log response size exceeded"), w1)
  /\ exists sent,
       w1 = (w ++ sent)%list
       /\ Forall
            (fun r => Query.page (Request.params r) = default 1 page
                      /\ Query.page (Request.params r)
                         <> default 1 page + 1) sent.
Proof.
  intros Hfetch Hlen Hne. split.
  - rewrite (getEvents_fetch_unfold _ _ _ _ _ Hfetch).
    cbn [Body.result optional_length]. rewrite Hlen.
    rewrite bool_decide_eq_true_2 by reflexivity.
    now rewrite bool_decide_eq_false_2 by exact Hne.
  - apply fetch_world in Hfetch as (k & -> & _).
    eexists. split; [reflexivity |].
    apply Forall_forall. intros r Hin.
    apply list_elem_of_In, repeat_spec in Hin as ->. cbn. lia.
Qed.

(** A string result of exactly 1000 characters takes the length-1000
    branch and is never matched against the rate-limit, query-timeout
    or provider-error rules.  Over a block range the call raises 'Log
    response size exceeded'; over a single block mapping over the
    string fails with a TypeError before any request for the next
    page. *)
Lemma long_string_takes_length_branch
    (fuel : nat) (page : option Z) (w : World) (s : string) (w1 : World) :
  fetch this (S fuel) chainId filter (default 1 page) w
    = (Returned {| Body.result := RString s |}, w1) ->
  JsString.length s = 1000 ->
  (Filter.fromBlock filter <> Filter.toBlock filter ->
     getEvents this (S fuel) chainId filter page w
     = (Thrown (Error "Log response size exceeded"), w1))
  /\ (Filter.fromBlock filter = Filter.toBlock filter ->
     getEvents this (S fuel) chainId filter page w
     = (Thrown (TypeError
          "data.result.map is not a function or its return value is not iterable"),
        w1))
  /\ exists sent,
       w1 = (w ++ sent)%list
       /\ Forall
            (fun r => Query.page (Request.params r) = default 1 page) sent.
Proof.
  intros Hfetch Hlen.
  rewrite (getEvents_fetch_unfold _ _ _ _ _ Hfetch).
  cbn [Body.result optional_length]. rewrite Hlen.
  rewrite bool_decide_eq_true_2 by reflexivity.
  split; [| split].
  - intros Hblocks. now rewrite bool_decide_eq_false_2 by exact Hblocks.
  - intros Hblocks. now rewrite bool_decide_eq_true_2 by exact Hblocks.
  - apply fetch_world in Hfetch as (k & -> & _).
    eexists. split; [reflexivity |].
    apply Forall_forall. intros r Hin.
    now apply list_elem_of_In, repeat_spec in Hin as ->.
Qed.

Lemma bind_ret_nil (m : M (list Log.t)) (w : World) :
  m w = (await later <- m; ret ([] ++ later)%list) w.
Proof. unfold bind. destruct (m w) as [[later | e |] w']; reflexivity. Qed.

(** Any number of full pages in a row are put in front of what the
    call for the page after them yields. *)
Lemma getEvents_full_pages (fuel : nat) (p : Z) (w : World)
    (pages : list (list EtherscanLog.t)) (w' : World) :
  Filter.fromBlock filter = Filter.toBlock filter ->
  FullPages this chainId filter fuel p w pages w' ->
  forall logss,
    Forall2 (fun records logs =>
               Array_map formatEtherscanEvent records = Ok logs)
            pages logss ->
    getEvents this fuel chainId filter (Some p) w
    = (await later <-
         getEvents this (fuel - List.length pages) chainId filter
           (Some (p + Z.of_nat (List.length pages)));
       ret (concat logss ++ later)%list) w'.
Proof.
  intros Heq Hpages.
  induction Hpages as [fuel p w | fuel p w records w1 pages w2
                                    Hfetch Hlen Hrest IH];
    intros logss Hnorm.
  - inversion Hnorm; subst. cbn [List.length concat].
    rewrite Nat.sub_0_r, Z.add_0_r. apply bind_ret_nil.
  - inversion Hnorm as [| ? logs ? logss' Hlogs Hnorm']; subst.
    rewrite (getEvents_fetch_unfold fuel (Some p) w _ _ Hfetch).
    change (default 1 (Some p)) with p.
    cbn [Body.result optional_length]. rewrite Hlen.
    rewrite bool_decide_eq_true_2 by reflexivity.
    rewrite bool_decide_eq_true_2 by exact Heq.
    cbn [result_map]. rewrite Hlogs. cbn [lift].
    unfold bind at 1. cbn [ret]. unfold bind at 1.
    rewrite (IH _ Hnorm').
    cbn [List.length concat].
    replace (p + Z.of_nat (S (List.length pages)))
      with (p + 1 + Z.of_nat (List.length pages)) by lia.
    change (S fuel - S (List.length pages))%nat
      with (fuel - List.length pages)%nat.
    unfold bind.
    destruct (getEvents this _ chainId filter _ w2)
      as [[later | e |] w3]; cbn; try reflexivity.
    now rewrite app_assoc.
Qed.

(** A call for [page] is a call for the page number [page] stands
    for: the number itself, or 1 when the argument is left out. *)
Lemma getEvents_page_number (fuel : nat) (page : option Z) (w : World) :
  getEvents this fuel chainId filter page w
  = getEvents this fuel chainId filter (Some (default 1 page)) w.
Proof. destruct page; [reflexivity | apply getEvents_default_page]. Qed.

(** C4: over a single block (fromBlock equals toBlock), full pages of
    1000 records make [getEvents] go on to the next page and put each
    page's normalized records before those of the pages after it;
    when the page after the full ones is a partial page, the call
    returns the normalized records of all the pages in page order.
    The call may name its first page or leave it out, which is asking
    for page 1. *)
Theorem pagination_concatenates_pages
    (fuel : nat) (page : option Z) (w : World)
    (pages : list (list EtherscanLog.t)) (w' : World)
    (logss : list (list Log.t)) :
  Filter.fromBlock filter = Filter.toBlock filter ->
  FullPages this chainId filter fuel (default 1 page) w pages w' ->
  Forall2 (fun records logs =>
             Array_map formatEtherscanEvent records = Ok logs)
          pages logss ->
  getEvents this fuel chainId filter page w
  = (await later <-
       getEvents this (fuel - List.length pages) chainId filter
         (Some (default 1 page + Z.of_nat (List.length pages)));
     ret (concat logss ++ later)%list) w'
  /\ forall last lastLogs w'',
       fetch this (fuel - List.length pages) chainId filter
         (default 1 page + Z.of_nat (List.length pages)) w'
         = (Returned {| Body.result := RArray last |}, w'') ->
       List.length last <> 1000%nat ->
       Array_map formatEtherscanEvent last = Ok lastLogs ->
       getEvents this fuel chainId filter page w
       = (Returned (concat (logss ++ [lastLogs])), w'').
Proof.
  intros Heq Hpages Hnorm.
  rewrite (getEvents_page_number fuel page w).
  pose proof (getEvents_full_pages _ _ _ _ _ Heq Hpages _ Hnorm) as Hrun.
  split; [exact Hrun |].
  intros last lastLogs w'' Hfetch Hlen Hlast.
  rewrite Hrun. unfold bind.
  destruct (fuel - List.length pages)%nat as [|rest] eqn:Hfuel;
    [now apply fetch_no_fuel in Hfetch |].
  rewrite (getEvents_fetch_unfold rest (Some _) w' _ _ Hfetch).
  cbn [Body.result optional_length].
  rewrite bool_decide_eq_false_2 by (intros [= Hz]; lia).
  rewrite Hlast. cbn.
  now rewrite concat_app, (app_nil_r lastLogs : concat [lastLogs] = _).
Qed.

End Orchestrator.

(** ** The orchestrator on the sample providers *)

Section Examples.

Import Sample.

(** A transport-level 429 is answered by sending the very same
    request again, page included. *)
Lemma transport_429_retries_same_request :
  run (busyOnce (RArray [])) 5 1 singleBlock (Some 2) []
  = (Returned [], [request singleBlock 2; request singleBlock 2]).
Proof. vm_compute. reflexivity. Qed.

(** C1: the code at a call for page 2 that meets the in-body
    rate-limit message: the retry asks for page 1, not for page 2.
    When the message arrives in the middle of a pagination, the
    restart at page 1 returns the first page twice. *)
Theorem rate_limit_retry_forgets_page :
  run rateLimitedOnce 5 1 singleBlock (Some 2) []
  = (Returned [], [request singleBlock 2; request singleBlock 1])
  /\ run rateLimitedOnSecondPage 5 1 singleBlock None []
     = (Returned (List.repeat (log (Int 26)) 1000
                  ++ List.repeat (log (Int 26)) 1000
                  ++ List.repeat (log (Int 28)) 2)%list,
        [request singleBlock 1; request singleBlock 2;
         request singleBlock 1; request singleBlock 2]).
Proof. split; vm_compute; reflexivity. Qed.

(** C7: the code at a provider error text of exactly 1000 characters
    that holds neither marker: the error raised does not carry the
    text.  Over a block range it is 'Log response size exceeded',
    over a single block a TypeError. *)
Theorem long_provider_error_is_not_passed_on :
  JsString.includes longMessage "Max rate limit reached" = false
  /\ JsString.includes longMessage "Query Timeout occured" = false
  /\ run (constantNetwork (RString longMessage)) 5 1 blockRange None []
     = (Thrown (Error "Log response size exceeded"),
        [request blockRange 1])
  /\ Error "Log response size exceeded" <> Error longMessage
  /\ run (constantNetwork (RString longMessage)) 5 1 singleBlock None []
     = (Thrown (TypeError
          "data.result.map is not a function or its return value is not iterable"),
        [request singleBlock 1]).
Proof.
  split; [vm_compute; reflexivity |].
  split; [vm_compute; reflexivity |].
  split; [vm_compute; reflexivity |].
  split; [discriminate | vm_compute; reflexivity].
Qed.

(** C10: the code at a string result of exactly 1000 characters.  The
    length-1000 branch is taken and the string rules are not
    consulted, but over a single block the call does not paginate: it
    ends in a TypeError after the one request for page 1, and page 2
    is never asked.  Over a block range the same string raises 'Log
    response size exceeded'. *)
Theorem long_string_is_not_paginated :
  JsString.length longMessage = 1000
  /\ Filter.fromBlock singleBlock = Filter.toBlock singleBlock
  /\ (exists text,
        run (constantNetwork (RString longMessage)) 5 1 singleBlock
          (Some 1) []
        = (Thrown (TypeError text), [request singleBlock 1]))
  /\ run (constantNetwork (RString longMessage)) 5 1 blockRange (Some 1) []
     = (Thrown (Error "Log response size exceeded"), [request blockRange 1]).
Proof.
  split; [vm_compute; reflexivity |].
  split; [reflexivity |].
  split; [| vm_compute; reflexivity].
  exists
    "data.result.map is not a function or its return value is not iterable".
  vm_compute. reflexivity.
Qed.

Lemma full_page_is_query_too_large_witness :
  run pagedNetwork 1 1 blockRange None []
  = (Thrown (Error "Log response size exceeded"), [request blockRange 1]).
Proof.
  refine (proj1 (@full_page_is_query_too_large externals pagedNetwork getter
            1 blockRange 0 None [] {| Body.result := RArray page1 |}
            [request blockRange 1] _ _) _).
  - vm_compute. reflexivity.
  - vm_compute. reflexivity.
  - discriminate.
Defined.

Lemma full_page_of_range_raises_witness :
  run pagedNetwork 3 1 blockRange (Some 2) []
  = (Thrown (Error "Log response size exceeded"), [request blockRange 2]).
Proof.
  refine (proj1 (@full_page_of_range_raises externals pagedNetwork getter 1
            blockRange 2 (Some 2) [] page2 [request blockRange 2] _ _ _)).
  - vm_compute. reflexivity.
  - vm_compute. reflexivity.
  - discriminate.
Defined.

Lemma long_string_takes_length_branch_witness :
  run (constantNetwork (RString longMessage)) 2 1 blockRange None []
  = (Thrown (Error "Log response size exceeded"), [request blockRange 1]).
Proof.
  refine (proj1 (@long_string_takes_length_branch externals
            (constantNetwork (RString longMessage)) getter 1 blockRange
            1 None [] longMessage [request blockRange 1] _ _) _).
  - vm_compute. reflexivity.
  - vm_compute. reflexivity.
  - discriminate.
Defined.

Lemma pagination_concatenates_pages_witness :
  run pagedNetwork 5 1 singleBlock None []
  = (Returned (concat [List.repeat (log (Int 26)) 1000;
                       List.repeat (log (Int 27)) 1000;
                       List.repeat (log (Int 28)) 2]),
     [request singleBlock 1; request singleBlock 2;
      request singleBlock 3]).
Proof.
  assert (Hpages :
    @FullPages externals pagedNetwork getter 1 singleBlock 5
      (default 1 None) []
      [page1; page2] [request singleBlock 1; request singleBlock 2]).
  { apply (@FullPages_cons externals pagedNetwork getter 1 singleBlock
             4 1 [] page1 [request singleBlock 1]);
      [vm_compute; reflexivity | vm_compute; reflexivity |].
    apply (@FullPages_cons externals pagedNetwork getter 1 singleBlock
             3 2 [request singleBlock 1] page2
             [request singleBlock 1; request singleBlock 2]);
      [vm_compute; reflexivity | vm_compute; reflexivity |].
    apply FullPages_nil. }
  assert (Hnorm :
    Forall2 (fun records logs =>
               Array_map (@formatEtherscanEvent externals) records
               = Ok logs)
      [page1; page2]
      [List.repeat (log (Int 26)) 1000; List.repeat (log (Int 27)) 1000]).
  { apply List.Forall2_cons; [vm_compute; reflexivity |].
    apply List.Forall2_cons; [vm_compute; reflexivity |].
    apply List.Forall2_nil. }
  unfold run.
  refine (proj2 (@pagination_concatenates_pages externals pagedNetwork
                   getter 1 singleBlock 5 None [] [page1; page2]
                   [request singleBlock 1; request singleBlock 2]
                   [List.repeat (log (Int 26)) 1000;
                    List.repeat (log (Int 27)) 1000]
                   eq_refl Hpages Hnorm)
                page3 (List.repeat (log (Int 28)) 2)
                [request singleBlock 1; request singleBlock 2;
                 request singleBlock 3] _ _ _).
  - vm_compute. reflexivity.
  - vm_compute. discriminate.
  - vm_compute. reflexivity.
Defined.

End Examples.


(** * Further properties *)

(** ** Decoding of hexadecimal fields *)

Lemma ofMathInt_exact (sign m : Z) :
  m < 2 ^ 53 -> (m = 0 -> sign = 1) ->
  JsNumber.ofMathInt sign m = Int (sign * m).
Proof.
  intros Hlt Hzero. unfold JsNumber.ofMathInt.
  destruct (Z.eqb_spec m 0) as [-> | Hne].
  - rewrite (Hzero eq_refl). reflexivity.
  - cbv zeta.
    assert (Hround : JsNumber.round53 m = m).
    { unfold JsNumber.round53.
      destruct (Z.ltb_spec (Z.log2 m) 53) as [_ | Hge]; [reflexivity |].
      exfalso. destruct (Z.le_gt_cases m 0) as [Hle | Hpos].
      - rewrite Z.log2_nonpos in Hge by exact Hle. lia.
      - apply Z.log2_lt_pow2 in Hlt; lia. }
    rewrite Hround.
    assert (Hpow : 2 ^ 53 < 2 ^ 1024) by (apply Z.pow_lt_mono_r; lia).
    destruct (Z.leb_spec (2 ^ 1024) m); [lia | reflexivity].
Qed.

(** X1: below 2^53 radix-16 decoding is exact: a text with at least one
    hexadecimal digit after the optional white space, sign and 0x
    prefix decodes to the signed value of its digit run, without
    rounding. *)
Theorem parseInt16_exact (text : string) :
  let sign := fst (JsNumber.readSign (JsString.trimStart text)) in
  let digits := JsNumber.radixDigits 16 (hexBody text) in
  digits <> [] ->
  JsNumber.mathInt 16 digits < 2 ^ 53 ->
  (JsNumber.mathInt 16 digits = 0 -> sign = 1) ->
  JsNumber.parseInt text 16 = Int (sign * JsNumber.mathInt 16 digits).
Proof.
  unfold JsNumber.parseInt, hexBody.
  destruct (JsNumber.readSign (JsString.trimStart text)) as [sign S1].
  cbn [fst snd]. cbv zeta.
  change (negb (16 =? 0) && ((16 <? 2) || (36 <? 16))) with false.
  change ((16 =? 0) || (16 =? 16)) with true. cbv iota. cbn [andb].
  change (if 16 =? 0 then 10 else 16) with 16.
  destruct (JsNumber.hasHexPrefix S1);
    (destruct (JsNumber.radixDigits 16 _) as [|d ds];
     [intros Hne; now destruct Hne |];
     intros _ Hlt Hzero; now apply ofMathInt_exact).
Qed.

Lemma parseInt16_exact_witness :
  JsNumber.parseInt "  -0x1Fz" 16 = Int (-31).
Proof.
  apply (parseInt16_exact "  -0x1Fz");
    [discriminate | reflexivity | discriminate].
Defined.

(** ** The query builder, continued *)

Lemma element_firstn (l : list JsValue) (i : nat) :
  (i < 4)%nat -> element (firstn 4 l) i = element l i.
Proof.
  intros Hi. unfold element. rewrite nth_firstn.
  destruct (Nat.ltb_spec i 4); [reflexivity | lia].
Qed.

(** X2: the query depends on the topics only through the first four
    of them and not on the case of their letters: two filters with the
    same block range whose first four topics agree up to letter case
    give the same query. *)
Theorem query_ignores_case_and_extra_topics
    (f g : Filter.t) (page : Z) (apiKey : option string) :
  Filter.fromBlock f = Filter.fromBlock g ->
  Filter.toBlock f = Filter.toBlock g ->
  map lowerTopic (firstn 4 (default [] (Filter.topics f)))
  = map lowerTopic (firstn 4 (default [] (Filter.topics g))) ->
  prepareEtherscanGetLogsQuery f page apiKey
  = prepareEtherscanGetLogsQuery g page apiKey.
Proof.
  intros Hfrom Hto Htopics.
  assert (Helem : forall i, (i < 4)%nat ->
    element (map lowerTopic (default [] (Filter.topics f))) i
    = element (map lowerTopic (default [] (Filter.topics g))) i).
  { intros i Hi.
    rewrite <- (element_firstn (map lowerTopic (default [] (Filter.topics f))))
      by exact Hi.
    rewrite <- (element_firstn (map lowerTopic (default [] (Filter.topics g))))
      by exact Hi.
    now rewrite !List.firstn_map, Htopics. }
  unfold prepareEtherscanGetLogsQuery. cbv zeta.
  rewrite Hfrom, Hto, !Helem by lia. reflexivity.
Qed.

Lemma query_ignores_case_and_extra_topics_witness :
  prepareEtherscanGetLogsQuery Scenario.fiveTopics 3 (Some "KEY")
  = prepareEtherscanGetLogsQuery Scenario.fourTopics 3 (Some "KEY").
Proof.
  apply query_ignores_case_and_extra_topics; reflexivity.
Defined.

(** X3: the query carries one combinator for each pair of present
    topics: with k present topics among the first four positions,
    exactly k(k-1)/2 of the six combinator parameters are defined. *)
Theorem combinator_count
    (filter : Filter.t) (page : Z) (apiKey : option string) :
  let q := prepareEtherscanGetLogsQuery filter page apiKey in
  let k := List.length (List.filter (present filter) [0; 1; 2; 3]%nat) in
  List.length (List.filter isDefined (combinators q))
  = (k * (k - 1) / 2)%nat.
Proof.
  cbv zeta. unfold combinators.
  change (Query.topic0_1_opr ?q) with (opr q 0 1).
  change (Query.topic0_2_opr ?q) with (opr q 0 2).
  change (Query.topic0_3_opr ?q) with (opr q 0 3).
  change (Query.topic1_2_opr ?q) with (opr q 1 2).
  change (Query.topic1_3_opr ?q) with (opr q 1 3).
  change (Query.topic2_3_opr ?q) with (opr q 2 3).
  rewrite !opr_prepare by (cbn; tauto).
  cbn [List.filter].
  destruct (present filter 0), (present filter 1), (present filter 2),
    (present filter 3); reflexivity.
Qed.

(** ** The constructor *)

Section Construction.

Context `{Externals}.

(** X4: the constructor gives every supported chain a queue built from
    that chain's identifier and rate limit, and no queue to any other
    chain, also when a chain is listed more than once. *)
Theorem constructor_queues (chainId : Z) :
  queues constructor !! chainId =
  if bool_decide (chainId ∈ ETHERSCAN_SUPPORTED_CHAINS)
  then Some {| identifier := getChainApiIdentifer chainId;
               rateLimit := getChainApiRateLimit chainId |}
  else None.
Proof.
  unfold constructor. cbn [queues].
  generalize ETHERSCAN_SUPPORTED_CHAINS as chains.
  induction chains as [|c chains IH]; cbn [map list_to_map foldr].
  - rewrite lookup_empty.
    now rewrite bool_decide_eq_false_2 by apply not_elem_of_nil.
  - cbn [fst snd]. rewrite lookup_insert.
    destruct (decide (c = chainId)) as [-> | Hne].
    + now rewrite bool_decide_eq_true_2 by apply list_elem_of_here.
    + rewrite IH. apply (f_equal (fun b : bool => if b then _ else _)).
      apply bool_decide_ext. rewrite elem_of_cons.
      split; [tauto | intros [-> | Hin]; [now destruct Hne | exact Hin]].
Qed.

End Construction.

(** ** The transport retry loop *)

Section Retry.

Context `{Externals} `{Network}.
Variables (queue : RequestQueue) (url : string) (query : Query.t).

Let request : Request.t := {| Request.url := url; Request.params := query |}.

Lemma queued_get_settles (w : World) :
  RequestQueue_add (Some queue) (axios_get url query) w
  = (settle (respond w request), (w ++ [request])%list).
Proof.
  cbn. unfold axios_get. fold request.
  destruct (respond w request); reflexivity.
Qed.

Lemma retryOn429_unfold {T} (fuel : nat) (fn : M T) (w : World) :
  retryOn429 (S fuel) fn w =
  match fn w with
  | (Thrown e, w') =>
      if JsString.includes (message e) "429"
      then retryOn429 fuel fn w'
      else (Thrown e, w')
  | other => other
  end.
Proof. reflexivity. Qed.

(** X5: [retryOn429] sends the same request again after every 429
    rejection and ends with the first answer that is not one: after k
    such rejections in a row the outcome is that of the next answer,
    a body or a rethrown rejection, and k+1 identical requests have
    been sent. *)
Theorem retryOn429_ends_with_first_other_answer (k : nat) :
  forall (fuel : nat) (w : World) (answer : HttpOutcome),
    (forall i, (i < k)%nat ->
       is429 (respond (w ++ List.repeat request i)%list request) = true) ->
    respond (w ++ List.repeat request k)%list request = answer ->
    is429 answer = false ->
    (k < fuel)%nat ->
    retryOn429 fuel (RequestQueue_add (Some queue) (axios_get url query)) w
    = (settle answer, (w ++ List.repeat request (S k))%list).
Proof.
  induction k as [|k IH]; intros fuel w answer Hbusy Hanswer Hother Hfuel;
    (destruct fuel as [|fuel]; [lia |]);
    rewrite retryOn429_unfold, queued_get_settles.
  - cbn [List.repeat] in Hanswer. rewrite app_nil_r in Hanswer.
    rewrite Hanswer.
    destruct answer as [data | e]; cbn in Hother |- *; [reflexivity |].
    now rewrite Hother.
  - pose proof (Hbusy 0%nat ltac:(lia)) as Hfirst.
    cbn [List.repeat] in Hfirst. rewrite app_nil_r in Hfirst.
    destruct (respond w request) as [data | e]; cbn in Hfirst;
      [discriminate |].
    cbn [settle]. rewrite Hfirst.
    rewrite (IH fuel (w ++ [request])%list answer).
    + f_equal. now rewrite <- app_assoc.
    + intros i Hi. rewrite <- app_assoc. apply (Hbusy (S i)). lia.
    + now rewrite <- app_assoc.
    + exact Hother.
    + lia.
Qed.

(** X6: the loop has no retry limit: against a provider that rejects
    every request with a 429, any number of attempts leaves it still
    retrying, with as many identical requests sent and no result. *)
Theorem retryOn429_has_no_retry_limit :
  (forall w r, is429 (respond w r) = true) ->
  forall (fuel : nat) (w : World),
    retryOn429 fuel (RequestQueue_add (Some queue) (axios_get url query)) w
    = (OutOfFuel, (w ++ List.repeat request fuel)%list).
Proof.
  intros Hbusy. induction fuel as [|fuel IH]; intros w.
  - cbn. now rewrite app_nil_r.
  - rewrite retryOn429_unfold, queued_get_settles.
    pose proof (Hbusy w request) as Hfirst.
    destruct (respond w request) as [data | e]; cbn in Hfirst;
      [discriminate |].
    cbn [settle]. rewrite Hfirst, IH. cbn. now rewrite <- app_assoc.
Qed.

End Retry.

Lemma retryOn429_ends_with_first_other_answer_witness :
  @retryOn429 Body.t 2
    (@RequestQueue_add Sample.externals Body.t (Some Scenario.queue)
       (@axios_get (Sample.busyOnce (RArray []))
          "https://api.etherscan.io/api" Scenario.query)) []
  = (Returned {| Body.result := RArray [] |},
     [Scenario.request; Scenario.request]).
Proof.
  apply (@retryOn429_ends_with_first_other_answer Sample.externals
           (Sample.busyOnce (RArray [])) Scenario.queue
           "https://api.etherscan.io/api" Scenario.query
           1 2 [] (Sample.body (RArray []))).
  - intros [|i] Hi; [reflexivity | lia].
  - reflexivity.
  - reflexivity.
  - lia.
Defined.

Lemma retryOn429_has_no_retry_limit_witness :
  @retryOn429 Body.t 3
    (@RequestQueue_add Sample.externals Body.t (Some Scenario.queue)
       (@axios_get Scenario.alwaysBusy
          "https://api.etherscan.io/api" Scenario.query)) []
  = (OutOfFuel, [Scenario.request; Scenario.request; Scenario.request]).
Proof.
  apply (@retryOn429_has_no_retry_limit Sample.externals Scenario.alwaysBusy
           Scenario.queue "https://api.etherscan.io/api" Scenario.query).
  intros w r. reflexivity.
Defined.

(** ** Normalizing a page *)

Lemma Array_map_Forall2 {A B} (f : A -> result B) (l : list A) (ys : list B) :
  Array_map f l = Ok ys <-> Forall2 (fun x y => f x = Ok y) l ys.
Proof.
  revert ys. induction l as [|x l IH]; intros ys; cbn.
  - split; [intros [= <-]; constructor | now inversion 1].
  - split.
    + destruct (f x) as [y |] eqn:Hx; [| discriminate].
      destruct (Array_map f l) as [ys' |]; [| discriminate].
      intros [= <-]. constructor; [exact Hx | now apply IH].
    + inversion 1 as [| ? y ? ys' Hx Hrest]; subst.
      rewrite Hx. apply IH in Hrest. now rewrite Hrest.
Qed.

Lemma Array_map_first_throw {A B} (f : A -> result B)
    (good : list A) (bad : A) (rest : list A) (e : exn) :
  Forall (fun x => exists y, f x = Ok y) good ->
  f bad = Throw e ->
  Array_map f (good ++ bad :: rest) = Throw e.
Proof.
  intros Hgood Hbad. induction Hgood as [| x good [y Hy] _ IH]; cbn.
  - now rewrite Hbad.
  - now rewrite Hy, IH.
Qed.


(** ** The orchestrator, continued *)

Section Retrieval.

Context `{Externals} `{Network}.
Variables (this : EtherscanEventGetter) (chainId : Z) (filter : Filter.t).

Local Open Scope async_scope.

Lemma fetch_supported (queue : RequestQueue) (fuel : nat) (page : Z)
    (w : World) :
  queues this !! chainId = Some queue ->
  fetch this (S fuel) chainId filter page w
  = match respond w (request_for chainId filter page) with
    | Response data =>
        (Returned data, (w ++ [request_for chainId filter page])%list)
    | Rejected e =>
        if JsString.includes (message e) "429"
        then fetch this fuel chainId filter page
               (w ++ [request_for chainId filter page])%list
        else (Thrown e, (w ++ [request_for chainId filter page])%list)
    end.
Proof.
  intros Hqueue. unfold fetch. rewrite Hqueue.
  rewrite retryOn429_unfold, queued_get_settles.
  unfold request_for. now destruct (respond w _).
Qed.

(** What [getEvents] does after a fetch that returned a body: it ends
    in the world the fetch left, or it goes on with a recursive call,
    for the next page or without a page. *)
Lemma getEvents_after_fetch (fuel : nat) (page : option Z) (w : World)
    (data : Body.t) (w1 : World) (o : outcome (list Log.t)) (w' : World) :
  fetch this (S fuel) chainId filter (default 1 page) w
    = (Returned data, w1) ->
  getEvents this (S fuel) chainId filter page w = (o, w') ->
  w' = w1
  \/ exists page' o',
       (page' = Some (default 1 page + 1) \/ page' = None)
       /\ getEvents this fuel chainId filter page' w1 = (o', w').
Proof.
  intros Hfetch Hrun.
  rewrite (getEvents_fetch_unfold _ _ _ _ _ _ _ _ Hfetch) in Hrun.
  destruct (bool_decide _).
  - destruct (bool_decide _); [| left; now injection Hrun].
    unfold bind at 1 in Hrun.
    destruct (result_map (Body.result data)); cbn in Hrun;
      [| left; now injection Hrun].
    unfold bind in Hrun.
    destruct (getEvents this fuel chainId filter _ w1)
      as [o' w2] eqn:Hrec.
    right. exists (Some (default 1 page + 1)), o'.
    split; [now left |].
    rewrite Hrec. f_equal.
    destruct o'; cbn in Hrun; now injection Hrun.
  - destruct (Body.result data) as [| | s | records | len];
      try (left; now injection Hrun).
    + destruct (JsString.includes s "Max rate limit reached").
      * right. exists None, o. split; [now right | exact Hrun].
      * left. destruct (JsString.includes s "Query Timeout occured");
          now injection Hrun.
    + left. destruct (Array_map formatEtherscanEvent records);
        cbn in Hrun; now injection Hrun.
Qed.

Lemma missing_queue_raises (fuel : nat) (page : option Z) (w : World) :
  queues this !! chainId = None ->
  getEvents this (S fuel) chainId filter page w
  = (Thrown (TypeError "Cannot read properties of undefined (reading 'add')"),
     w).
Proof.
  intros Hqueue. cbn [getEvents]. unfold bind at 1. now rewrite Hqueue.
Qed.

Lemma requests_from_S (p : Z) (n : nat) :
  requests_from chainId filter p (S n)
  = request_for chainId filter p :: requests_from chainId filter (p + 1) n.
Proof.
  unfold requests_from. cbn [seq map]. rewrite Z.add_0_r. f_equal.
  rewrite <- seq_shift, map_map. apply map_ext. intros i.
  f_equal. lia.
Qed.

(** X8: the in-body rate-limit retry has no limit either: against a
    provider that answers every request with the rate-limit message,
    any number of calls leaves [getEvents] still retrying; after the
    first request every request is for page 1. *)
Theorem rate_limit_retry_has_no_limit (queue : RequestQueue) (s : string) :
  queues this !! chainId = Some queue ->
  (forall w r, respond w r = Response {| Body.result := RString s |}) ->
  JsString.includes s "Max rate limit reached" = true ->
  JsString.length s <> 1000 ->
  forall (fuel : nat) (page : option Z) (w : World),
    getEvents this fuel chainId filter page w
    = (OutOfFuel,
       (w ++ match fuel with
             | O => []
             | S n => request_for chainId filter (default 1 page)
                      :: List.repeat (request_for chainId filter 1) n
             end)%list).
Proof.
  intros Hqueue Hanswer Hmark Hlen.
  induction fuel as [|fuel IH]; intros page w.
  - cbn. now rewrite app_nil_r.
  - assert (Hfetch :
      fetch this (S fuel) chainId filter (default 1 page) w
      = (Returned {| Body.result := RString s |},
         (w ++ [request_for chainId filter (default 1 page)])%list))
      by (rewrite (fetch_supported _ _ _ _ Hqueue); now rewrite Hanswer).
    rewrite (getEvents_fetch_unfold _ _ _ _ _ _ _ _ Hfetch).
    cbn [Body.result optional_length].
    rewrite bool_decide_eq_false_2 by congruence.
    rewrite Hmark, IH, <- app_assoc. cbn [app default].
    do 2 f_equal. now destruct fuel.
Qed.

(** X9: pagination has no page limit: over a single block, against a
    provider that answers every request with a full page, any number
    of calls leaves [getEvents] still paginating, having asked for the
    consecutive pages from the first one on. *)
Theorem pagination_has_no_page_limit
    (queue : RequestQueue) (records : list EtherscanLog.t)
    (logs : list Log.t) :
  queues this !! chainId = Some queue ->
  Filter.fromBlock filter = Filter.toBlock filter ->
  (forall w r, respond w r = Response {| Body.result := RArray records |}) ->
  List.length records = 1000%nat ->
  Array_map formatEtherscanEvent records = Ok logs ->
  forall (fuel : nat) (p : Z) (w : World),
    getEvents this fuel chainId filter (Some p) w
    = (OutOfFuel, (w ++ requests_from chainId filter p fuel)%list).
Proof.
  intros Hqueue Hsingle Hanswer Hlen Hlogs.
  induction fuel as [|fuel IH]; intros p w.
  - cbn. now rewrite app_nil_r.
  - assert (Hfetch :
      fetch this (S fuel) chainId filter (default 1 (Some p)) w
      = (Returned {| Body.result := RArray records |},
         (w ++ [request_for chainId filter p])%list))
      by (rewrite (fetch_supported _ _ _ _ Hqueue); now rewrite Hanswer).
    rewrite (getEvents_fetch_unfold _ _ _ _ _ _ _ _ Hfetch).
    cbn [Body.result optional_length]. rewrite Hlen.
    rewrite bool_decide_eq_true_2 by reflexivity.
    rewrite bool_decide_eq_true_2 by exact Hsingle.
    cbn [result_map]. rewrite Hlogs. cbn [lift].
    unfold bind at 1. cbn [ret]. unfold bind.
    change (default 1 (Some p)) with p.
    rewrite IH, requests_from_S, <- app_assoc. reflexivity.
Qed.

(** X10: a result that is neither a string nor an array (a missing or
    null result, a number, an object), unless it has a length of 1000,
    ends the call with the fixed error 'Could not retrieve event logs
    from the blockchain'; nothing more is sent. *)
Theorem malformed_result_raises
    (fuel : nat) (page : option Z) (w : World) (data : Body.t) (w1 : World) :
  fetch this (S fuel) chainId filter (default 1 page) w
    = (Returned data, w1) ->
  match Body.result data with
  | RUndefined | RNull => True
  | ROther len => len <> Some 1000
  | RString _ | RArray _ => False
  end ->
  getEvents this (S fuel) chainId filter page w
  = (Thrown (Error "Could not retrieve event logs from the blockchain"), w1).
Proof.
  intros Hfetch Hshape.
  rewrite (getEvents_fetch_unfold _ _ _ _ _ _ _ _ Hfetch).
  destruct (Body.result data) as [| | s | records | len];
    try contradiction; cbn [optional_length];
    now rewrite bool_decide_eq_false_2 by congruence.
Qed.

(** X11: a string result (of a length other than 1000) that holds the
    query-timeout marker raises 'Log response size exceeded', the error
    of a full page over a block range, and nothing more is sent; when
    it also holds the rate-limit marker, that one wins and the call is
    retried. *)
Theorem query_timeout_asks_for_smaller_range
    (fuel : nat) (page : option Z) (w : World) (s : string) (w1 : World) :
  fetch this (S fuel) chainId filter (default 1 page) w
    = (Returned {| Body.result := RString s |}, w1) ->
  JsString.length s <> 1000 ->
  JsString.includes s "Query Timeout occured" = true ->
  (JsString.includes s "Max rate limit reached" = false ->
     getEvents this (S fuel) chainId filter page w
     = (Thrown (Error "Log response size exceeded"), w1))
  /\ (JsString.includes s "Max rate limit reached" = true ->
     getEvents this (S fuel) chainId filter page w
     = getEvents this fuel chainId filter None w1).
Proof.
  intros Hfetch Hlen Htime.
  rewrite (getEvents_fetch_unfold _ _ _ _ _ _ _ _ Hfetch).
  cbn [Body.result optional_length].
  rewrite bool_decide_eq_false_2 by congruence.
  split; intros Hrate; rewrite Hrate; [now rewrite Htime | reflexivity].
Qed.

(** X12: an array of other than 1000 records whose addresses are all
    accepted is returned normalized, one Log per record in the order
    of the records, after the fetch alone; an empty array gives an
    empty result. *)
Theorem partial_page_is_returned
    (fuel : nat) (page : option Z) (w : World)
    (records : list EtherscanLog.t) (w1 : World) :
  fetch this (S fuel) chainId filter (default 1 page) w
    = (Returned {| Body.result := RArray records |}, w1) ->
  List.length records <> 1000%nat ->
  Forall (fun r => exists a, getAddress (EtherscanLog.address r) = Ok a)
    records ->
  exists logs,
    getEvents this (S fuel) chainId filter page w = (Returned logs, w1)
    /\ Forall2 (fun r log => formatEtherscanEvent r = Ok log) records logs
    /\ (records = [] -> logs = []).
Proof.
  intros Hfetch Hlen Haddr.
  destruct (Array_map_total formatEtherscanEvent records) as [logs Hlogs].
  { eapply Forall_impl; [exact Haddr |]. intros r [a Ha].
    eexists. apply (formatEtherscanEvent_Ok _ _ Ha). }
  exists logs. split; [| split].
  - rewrite (getEvents_fetch_unfold _ _ _ _ _ _ _ _ Hfetch).
    cbn [Body.result optional_length].
    rewrite bool_decide_eq_false_2 by (intros [= Hz]; lia).
    now rewrite Hlogs.
  - now apply Array_map_Forall2.
  - intros ->. cbn in Hlogs. now injection Hlogs.
Qed.

(** X13: one rejected address aborts the whole page: when the records
    before it are accepted, the call ends with the error [getAddress]
    raised for it, in the world the fetch left.  This holds for a
    partial page and for a full page over a single block, where the
    next page is then never asked. *)
Theorem rejected_address_aborts_page
    (fuel : nat) (page : option Z) (w : World)
    (good : list EtherscanLog.t) (bad : EtherscanLog.t)
    (rest : list EtherscanLog.t) (e : exn) (w1 : World) :
  fetch this (S fuel) chainId filter (default 1 page) w
    = (Returned {| Body.result := RArray (good ++ bad :: rest) |}, w1) ->
  Forall (fun r => exists a, getAddress (EtherscanLog.address r) = Ok a)
    good ->
  getAddress (EtherscanLog.address bad) = Throw e ->
  List.length (good ++ bad :: rest) <> 1000%nat
  \/ Filter.fromBlock filter = Filter.toBlock filter ->
  getEvents this (S fuel) chainId filter page w = (Thrown e, w1).
Proof.
  intros Hfetch Hgood Hbad Hcase.
  assert (Hmap :
    Array_map formatEtherscanEvent (good ++ bad :: rest) = Throw e).
  { apply Array_map_first_throw.
    - eapply Forall_impl; [exact Hgood |]. intros r [a Ha].
      eexists. apply (formatEtherscanEvent_Ok _ _ Ha).
    - unfold formatEtherscanEvent. now rewrite Hbad. }
  rewrite (getEvents_fetch_unfold _ _ _ _ _ _ _ _ Hfetch).
  cbn [Body.result optional_length].
  destruct (bool_decide_reflect
              (Some (Z.of_nat (List.length (good ++ bad :: rest)))
               = Some 1000)) as [Hfull | Hpart].
  - destruct Hcase as [Hlen | Hsingle];
      [exfalso; injection Hfull as Hz; lia |].
    rewrite bool_decide_eq_true_2 by exact Hsingle.
    cbn [result_map]. now rewrite Hmap.
  - now rewrite Hmap.
Qed.

(** X17: pagination is all or nothing: over a single block, when a
    full page has been normalized and the call for the next page ends
    with an exception, the whole call ends with that exception and the
    records of the pages read so far are not returned. *)
Theorem failed_later_page_discards_earlier_pages
    (fuel : nat) (page : option Z) (w : World)
    (records : list EtherscanLog.t) (current : list Log.t)
    (w1 : World) (e : exn) (w2 : World) :
  fetch this (S fuel) chainId filter (default 1 page) w
    = (Returned {| Body.result := RArray records |}, w1) ->
  List.length records = 1000%nat ->
  Filter.fromBlock filter = Filter.toBlock filter ->
  Array_map formatEtherscanEvent records = Ok current ->
  getEvents this fuel chainId filter (Some (default 1 page + 1)) w1
    = (Thrown e, w2) ->
  getEvents this (S fuel) chainId filter page w = (Thrown e, w2).
Proof.
  intros Hfetch Hlen Hsingle Hcurrent Hlater.
  rewrite (getEvents_fetch_unfold _ _ _ _ _ _ _ _ Hfetch).
  cbn [Body.result optional_length]. rewrite Hlen.
  rewrite bool_decide_eq_true_2 by reflexivity.
  rewrite bool_decide_eq_true_2 by exact Hsingle.
  cbn [result_map]. rewrite Hcurrent. cbn [lift].
  unfold bind at 1. cbn [ret]. unfold bind. now rewrite Hlater.
Qed.

End Retrieval.

(** X7: a call on a freshly constructed getter for a chain that is not
    among the supported ones fails with a TypeError on the missing
    queue, and no request is sent. *)
Theorem unsupported_chain_raises `{Externals} `{Network}
    (fuel : nat) (chainId : Z) (filter : Filter.t) (page : option Z)
    (w : World) :
  chainId ∉ ETHERSCAN_SUPPORTED_CHAINS ->
  getEvents constructor (S fuel) chainId filter page w
  = (Thrown (TypeError "Cannot read properties of undefined (reading 'add')"),
     w).
Proof.
  intros Hchain. apply missing_queue_raises.
  rewrite constructor_queues. now rewrite bool_decide_eq_false_2.
Qed.

(** ** What every call keeps *)

Section Invariants.

Context `{Externals} `{Network}.
Variables (this : EtherscanEventGetter) (chainId : Z) (filter : Filter.t).

Local Open Scope async_scope.

Lemma Forall_repeat_request (P : Request.t -> Prop) (r : Request.t) (k : nat) :
  P r -> Forall P (List.repeat r k).
Proof. intros Hr. induction k; cbn; now constructor. Qed.

(** X14: whatever its outcome, a call only adds requests to those
    already sent, and every request it adds is a query for the same
    chain and the same filter, differing from the others in the page
    number alone; the page is never below the smaller of 1 and the
    page the call was for. *)
Theorem getEvents_sends_only_its_own_query (fuel : nat) :
  forall (page : option Z) (w : World) (o : outcome (list Log.t))
         (w' : World),
    getEvents this fuel chainId filter page w = (o, w') ->
    exists sent,
      w' = (w ++ sent)%list
      /\ Forall (fun r => exists p,
                   r = request_for chainId filter p
                   /\ Z.min 1 (default 1 page) <= p) sent.
Proof.
  induction fuel as [|fuel IH]; intros page w o w' Hrun.
  - injection Hrun as _ <-. exists []. split; [now rewrite app_nil_r |].
    constructor.
  - destruct (fetch this (S fuel) chainId filter (default 1 page) w)
      as [o1 w1] eqn:Hfetch.
    destruct (fetch_world _ _ _ _ _ _ _ _ Hfetch) as (k & Hw1 & _).
    assert (Hfirst :
      Forall (fun r => exists p,
                r = request_for chainId filter p
                /\ Z.min 1 (default 1 page) <= p)
        (List.repeat (request_for chainId filter (default 1 page)) k)).
    { apply Forall_repeat_request. eexists. split; [reflexivity | lia]. }
    assert (Hends : w' = w1 ->
      exists sent,
        w' = (w ++ sent)%list
        /\ Forall (fun r => exists p,
                     r = request_for chainId filter p
                     /\ Z.min 1 (default 1 page) <= p) sent).
    { intros ->. eexists. split; [exact Hw1 | exact Hfirst]. }
    destruct o1 as [data | e |].
    + destruct (getEvents_after_fetch _ _ _ _ _ _ _ _ _ _ Hfetch Hrun)
        as [Hsame | (page' & o' & Hpage' & Hrec)]; [now apply Hends |].
      apply IH in Hrec as (sent' & -> & Hsent').
      eexists. split; [rewrite Hw1, <- app_assoc; reflexivity |].
      apply Forall_app. split; [exact Hfirst |].
      eapply Forall_impl; [exact Hsent' |].
      intros r (p & -> & Hp). exists p. split; [reflexivity |].
      destruct Hpage' as [-> | ->]; cbn in Hp; lia.
    + rewrite (getEvents_fetch_thrown _ _ _ _ _ _ _ _ Hfetch) in Hrun.
      apply Hends. now injection Hrun.
    + destruct (getEvents_fetch_fails _ _ _ _ _ _ _ _ Hfetch)
        as (o' & Ho' & _); [discriminate |].
      rewrite Ho' in Hrun. apply Hends. now injection Hrun.
Qed.

Lemma normalized_page (records : list EtherscanLog.t) (logs : list Log.t) :
  Array_map formatEtherscanEvent records = Ok logs ->
  Forall (fun log =>
            Forall (fun t => truthy t = true) (Log.topics log)
            /\ exists a, getAddress a = Ok (Log.address log)) logs.
Proof.
  intros Hmap. apply Array_map_Forall2 in Hmap.
  induction Hmap as [| r log records logs Hlog _ IH]; constructor;
    [| exact IH].
  destruct (formatEtherscanEvent_inv _ _ Hlog) as [a Ha].
  rewrite (formatEtherscanEvent_Ok _ _ Ha) in Hlog.
  injection Hlog as <-. cbn. split; [apply filter_Forall | eauto].
Qed.

(** X15: the logs a call returns, over however many pages and retries,
    hold no empty or falsy topic, and each address is one that
    [getAddress] gave back. *)
Theorem returned_logs_are_normalized (fuel : nat) :
  forall (page : option Z) (w : World) (logs : list Log.t) (w' : World),
    getEvents this fuel chainId filter page w = (Returned logs, w') ->
    Forall (fun log =>
              Forall (fun t => truthy t = true) (Log.topics log)
              /\ exists a, getAddress a = Ok (Log.address log)) logs.
Proof.
  induction fuel as [|fuel IH]; intros page w logs w' Hrun;
    [discriminate |].
  destruct (fetch this (S fuel) chainId filter (default 1 page) w)
    as [o1 w1] eqn:Hfetch.
  destruct o1 as [data | e |].
  - rewrite (getEvents_fetch_unfold _ _ _ _ _ _ _ _ Hfetch) in Hrun.
    destruct (bool_decide _).
    + destruct (bool_decide _); [| discriminate].
      unfold bind at 1 in Hrun.
      destruct (Body.result data) as [| | s | records | len];
        try discriminate.
      cbn [result_map] in Hrun.
      destruct (Array_map formatEtherscanEvent records) as [current |]
        eqn:Hcurrent; cbn in Hrun; [| discriminate].
      unfold bind in Hrun.
      destruct (getEvents this fuel chainId filter _ w1)
        as [[later | e |] w2] eqn:Hrec; try discriminate.
      cbn in Hrun. injection Hrun as <- _.
      apply Forall_app. split; [exact (normalized_page _ _ Hcurrent) | eauto].
    + destruct (Body.result data) as [| | s | records | len];
        try discriminate.
      * destruct (JsString.includes s "Max rate limit reached");
          [eauto |].
        destruct (JsString.includes s "Query Timeout occured");
          discriminate.
      * destruct (Array_map formatEtherscanEvent records) as [current |]
          eqn:Hcurrent; cbn in Hrun; [| discriminate].
        injection Hrun as <- _. exact (normalized_page _ _ Hcurrent).
  - rewrite (getEvents_fetch_thrown _ _ _ _ _ _ _ _ Hfetch) in Hrun.
    discriminate.
  - destruct (getEvents_fetch_fails _ _ _ _ _ _ _ _ Hfetch)
      as (o' & Ho' & Hno); [discriminate |].
    rewrite Ho' in Hrun. injection Hrun as -> _. now destruct (Hno logs).
Qed.





End Invariants.

(** ** The further properties on the sample providers *)

Section MoreExamples.

Import Sample.

Lemma getter_queue : queues getter !! 1 = Some Scenario.queue.
Proof. vm_compute. reflexivity. Qed.

Lemma unsupported_chain_raises_witness :
  @getEvents externals pagedNetwork getter 1 5 blockRange None []
  = (Thrown (TypeError "Cannot read properties of undefined (reading 'add')"),
     []).
Proof.
  apply (@unsupported_chain_raises externals pagedNetwork 0 5 blockRange
           None []).
  intros Hin.
  apply elem_of_cons in Hin as [Hin | Hin]; [discriminate |].
  apply elem_of_cons in Hin as [Hin | Hin]; [discriminate |].
  now apply elem_of_nil in Hin.
Defined.

Lemma rate_limit_retry_has_no_limit_witness :
  run (constantNetwork (RString "Max rate limit reached")) 3 1 singleBlock
    (Some 2) []
  = (OutOfFuel,
     [request singleBlock 2; request singleBlock 1; request singleBlock 1]).
Proof.
  apply (@rate_limit_retry_has_no_limit externals
           (constantNetwork (RString "Max rate limit reached")) getter 1
           singleBlock
           Scenario.queue "Max rate limit reached" getter_queue).
  - intros w r. reflexivity.
  - reflexivity.
  - discriminate.
Defined.

Lemma pagination_has_no_page_limit_witness :
  run (constantNetwork (RArray page1)) 2 1 singleBlock (Some 1) []
  = (OutOfFuel, [request singleBlock 1; request singleBlock 2]).
Proof.
  apply (@pagination_has_no_page_limit externals
           (constantNetwork (RArray page1)) getter 1 singleBlock
           Scenario.queue page1 (List.repeat (log (Int 26)) 1000)
           getter_queue eq_refl).
  - intros w r. reflexivity.
  - vm_compute. reflexivity.
  - vm_compute. reflexivity.
Defined.

Lemma malformed_result_raises_witness :
  run (constantNetwork RNull) 1 1 blockRange None []
  = (Thrown (Error "Could not retrieve event logs from the blockchain"),
     [request blockRange 1]).
Proof.
  apply (@malformed_result_raises externals (constantNetwork RNull) getter 1
           blockRange 0 None [] {| Body.result := RNull |}
           [request blockRange 1]).
  - vm_compute. reflexivity.
  - exact I.
Defined.

Lemma query_timeout_asks_for_smaller_range_witness :
  run (constantNetwork (RString "Query Timeout occured. Please retry"))
    1 1 blockRange None []
  = (Thrown (Error "Log response size exceeded"), [request blockRange 1]).
Proof.
  refine (proj1 (@query_timeout_asks_for_smaller_range externals
            (constantNetwork (RString "Query Timeout occured. Please retry"))
            getter 1 blockRange 0 None []
            "Query Timeout occured. Please retry" [request blockRange 1]
            _ _ _) _).
  - vm_compute. reflexivity.
  - vm_compute. discriminate.
  - vm_compute. reflexivity.
  - vm_compute. reflexivity.
Defined.

Lemma partial_page_is_returned_witness :
  exists logs,
    run pagedNetwork 1 1 blockRange (Some 3) []
    = (Returned logs, [request blockRange 3])
    /\ Forall2 (fun r log => @formatEtherscanEvent externals r = Ok log)
         page3 logs
    /\ (page3 = [] -> logs = []).
Proof.
  apply (@partial_page_is_returned externals pagedNetwork getter 1
           blockRange 0 (Some 3) [] page3 [request blockRange 3]).
  - vm_compute. reflexivity.
  - vm_compute. discriminate.
  - repeat constructor; exists zeroAddress; reflexivity.
Defined.

Lemma rejected_address_aborts_page_witness :
  run (constantNetwork
         (RArray [record "0x1" []; Scenario.badRecord; record "0x2" []]))
    1 1 blockRange None []
  = (Thrown (InvalidAddressError "0xnothex"), [request blockRange 1]).
Proof.
  apply (@rejected_address_aborts_page externals
           (constantNetwork
              (RArray [record "0x1" []; Scenario.badRecord; record "0x2" []]))
           getter 1 blockRange 0 None []
           [record "0x1" []] Scenario.badRecord [record "0x2" []]
           (InvalidAddressError "0xnothex") [request blockRange 1]).
  - vm_compute. reflexivity.
  - repeat constructor. exists zeroAddress. reflexivity.
  - reflexivity.
  - left. vm_compute. discriminate.
Defined.

Lemma getEvents_sends_only_its_own_query_witness :
  exists sent,
    [request singleBlock 2; request singleBlock 1] = ([] ++ sent)%list
    /\ Forall (fun r => exists p,
                 r = @request_for externals 1 singleBlock p
                 /\ Z.min 1 (default 1 (Some 2)) <= p) sent.
Proof.
  apply (@getEvents_sends_only_its_own_query externals rateLimitedOnce
           getter 1 singleBlock 5 (Some 2) [] (Returned [])).
  vm_compute. reflexivity.
Defined.

Lemma returned_logs_are_normalized_witness :
  Forall (fun log =>
            Forall (fun t => truthy t = true) (Log.topics log)
            /\ exists a, @getAddress externals a = Ok (Log.address log))
    [log (Int 28); log (Int 28)].
Proof.
  apply (@returned_logs_are_normalized externals pagedNetwork getter 1
           blockRange 1 (Some 3) [] [log (Int 28); log (Int 28)]
           [request blockRange 3]).
  vm_compute. reflexivity.
Defined.


Lemma failed_later_page_discards_earlier_pages_witness :
  run Scenario.failsAfterFirstPage 2 1 singleBlock None []
  = (Thrown (Error "boom"), [request singleBlock 1; request singleBlock 2]).
Proof.
  apply (@failed_later_page_discards_earlier_pages externals
           Scenario.failsAfterFirstPage getter 1 singleBlock 1 None []
           page1 (List.repeat (log (Int 26)) 1000) [request singleBlock 1]
           (Error "boom") [request singleBlock 1; request singleBlock 2]).
  - vm_compute. reflexivity.
  - vm_compute. reflexivity.
  - reflexivity.
  - vm_compute. reflexivity.
  - vm_compute. reflexivity.
Defined.

End MoreExamples.
